(** * honeybee-display: wireframe extraction and attribute-label placement

    A shallow embedding of [honeybee_display/colorobj.py],
    [honeybee_display/energy/colorobj.py], [honeybee_display/face.py] and
    [honeybee_display/aperture.py].

    Numbers: Python floats are read as exact rationals ([Q]); rounding is
    not modelled.  Line widths are Python ints ([Z]).  Text is [string].
    A Python list that is built by [append] inside [for] loops is threaded
    through [fold_left] as explicit state. *)

From Stdlib Require Import List ZArith QArith Qfield Lqa Lia Bool String Ascii.
Import ListNotations.

Set Implicit Arguments.

(** [length] and [concat] are those of lists; the length of text is written
    [String.length]. *)
Abbreviation length := List.length (only parsing).
Abbreviation concat := List.concat (only parsing).

(** ** Numbers *)

(** Python's [a < b] and [a != b] on numbers. *)
Definition Qltb (a b : Q) : bool := negb (Qle_bool b a).
Definition Qneqb (a b : Q) : bool := negb (Qeq_bool a b).

(** Python's builtin [max(a, b)]: the first argument unless the second is
    strictly larger. *)
Definition py_max (a b : Q) : Q := if Qltb a b then b else a.

(** ** ladybug_geometry value types, as far as the code reads them *)

Module Vector3D.
Record t : Type := mk { x : Q; y : Q; z : Q }.

(** [-v] *)
Definition neg (v : t) : t := mk (- x v) (- y v) (- z v).

(** [v * s] for a number [s] *)
Definition mul (v : t) (s : Q) : t := mk (x v * s) (y v * s) (z v * s).

Definition dot (u v : t) : Q := x u * x v + y u * y v + z u * z v.

Definition cross (u v : t) : t :=
  mk (y u * z v - z u * y v) (z u * x v - x u * z v) (x u * y v - y u * x v).

Definition sub (u v : t) : t := mk (x u - x v) (y u - y v) (z u - z v).

(** Componentwise equality of rationals. *)
Definition equiv (u v : t) : Prop := x u == x v /\ y u == y v /\ z u == z v.
End Vector3D.

Module Point3D.
Record t : Type := mk { x : Q; y : Q; z : Q }.

(** [pt.move(vec)] *)
Definition move (p : t) (v : Vector3D.t) : t :=
  mk (x p + Vector3D.x v) (y p + Vector3D.y v) (z p + Vector3D.z v).

Definition equiv (p q : t) : Prop := x p == x q /\ y p == y q /\ z p == z q.
End Point3D.

(** A line segment: its two end points, in order. *)
Definition LineSegment3D : Type := (Point3D.t * Point3D.t)%type.

Module Face3D.
(** The attributes of a [Face3D] that the code reads.  [holes] is [None]
    exactly when [has_holes] is false. *)
Record t : Type := mk {
  boundary : list Point3D.t;
  holes : option (list (list Point3D.t));
  center : Point3D.t;
  normal : Vector3D.t;
  min : Point3D.t;
  max : Point3D.t
}.

Definition has_holes (f : t) : bool :=
  match holes f with Some _ => true | None => false end.

(** Number of hole rings of the face. *)
Definition hole_count (f : t) : nat :=
  match holes f with Some hs => List.length hs | None => 0%nat end.

Fixpoint segments_from (first : Point3D.t) (pts : list Point3D.t)
  : list LineSegment3D :=
  match pts with
  | [] => []
  | p :: rest =>
      match rest with
      | [] => [(p, first)]
      | q :: _ => (p, q) :: segments_from first rest
      end
  end.

(** Modelled from the spec: the [boundary_segments] accessor of the external
    geometry library; one segment per consecutive pair of boundary points in
    input order, the last one closing back to the first point. *)
Definition boundary_segments (f : t) : list LineSegment3D :=
  match boundary f with
  | [] => []
  | p0 :: _ => segments_from p0 (boundary f)
  end.
End Face3D.

Module Polyface3D.
(** The attributes of a room's [Polyface3D] that the code reads. *)
Record t : Type := mk {
  center : Point3D.t;
  min : Point3D.t;
  max : Point3D.t
}.
End Polyface3D.

(** ** honeybee objects *)

Definition Color : Type := (Z * Z * Z)%type.

(** What [isinstance(obj, Face)] distinguishes. *)
Inductive ObjKind : Type := KFace | KAperture | KDoor | KShade.

(** An object with a geometry and a list of attached shades; the shades are
    objects of the same shape and may carry shades of their own. *)
#[warning="-register-all"]
Inductive HBObject : Type :=
  mkHBObject (kind : ObjKind) (identifier display_name : string)
             (geometry : Face3D.t) (type_color bc_color : Color)
             (shades : list HBObject).

Definition kind (o : HBObject) : ObjKind :=
  let 'mkHBObject k _ _ _ _ _ _ := o in k.
Definition identifier (o : HBObject) : string :=
  let 'mkHBObject _ i _ _ _ _ _ := o in i.
Definition display_name (o : HBObject) : string :=
  let 'mkHBObject _ _ d _ _ _ _ := o in d.
Definition geometry (o : HBObject) : Face3D.t :=
  let 'mkHBObject _ _ _ g _ _ _ := o in g.
Definition type_color (o : HBObject) : Color :=
  let 'mkHBObject _ _ _ _ c _ _ := o in c.
Definition bc_color (o : HBObject) : Color :=
  let 'mkHBObject _ _ _ _ _ c _ := o in c.
Definition shades (o : HBObject) : list HBObject :=
  let 'mkHBObject _ _ _ _ _ _ s := o in s.

Definition isinstance_Face (o : HBObject) : bool :=
  match kind o with KFace => true | _ => false end.

(** A honeybee [Face]: the object itself plus what only faces have. *)
Record Face : Type := mkFace {
  face_obj : HBObject;
  punched_geometry : Face3D.t;
  _apertures : list HBObject;
  _doors : list HBObject
}.

Record Room : Type := mkRoom {
  room_geometry : Polyface3D.t;
  faces : list Face;
  room_shades : list HBObject
}.

(** ** ladybug_display objects *)

Record DisplayLineSegment3D : Type := mkDisplayLineSegment3D {
  seg_geometry : LineSegment3D;
  line_width : Z
}.

(** ** colorobj.py: wireframes *)

(** [wireframe.append(item)] *)
Definition append {A : Type} (wireframe : list A) (item : A) : list A :=
  wireframe ++ [item].

(** [_process_wireframe(geo_obj, wireframe, line_width=1)]; returns the list
    [wireframe] after the call.  [if face3d.has_holes: for hole in
    face3d.holes] is the match on [Face3D.holes], which is [Some] exactly
    when [has_holes] is true. *)
Definition _process_wireframe (geo_obj : HBObject)
    (wireframe : list DisplayLineSegment3D) (line_width : Z)
  : list DisplayLineSegment3D :=
  let face3d := geometry geo_obj in
  let wireframe :=
    fold_left (fun w seg => append w (mkDisplayLineSegment3D seg line_width))
              (Face3D.boundary_segments face3d) wireframe in
  let wireframe :=
    match Face3D.holes face3d with
    | Some holes =>
        fold_left (fun w (hole : list Point3D.t) =>
          fold_left (fun w seg =>
                       append w (mkDisplayLineSegment3D seg line_width))
                    (Face3D.boundary_segments face3d) w)
          holes wireframe
    | None => wireframe
    end in
  fold_left (fun w shade =>
    let sh_geo := geometry shade in
    let w :=
      fold_left (fun w seg => append w (mkDisplayLineSegment3D seg 1))
                (Face3D.boundary_segments sh_geo) w in
    match Face3D.holes sh_geo with
    | Some holes =>
        fold_left (fun w (hole : list Point3D.t) =>
          fold_left (fun w seg => append w (mkDisplayLineSegment3D seg 1))
                    (Face3D.boundary_segments sh_geo) w)
          holes w
    | None => w
    end)
    (shades geo_obj) wireframe.

(** [_face_wireframe(faces)]: the segments of the returned
    [ContextGeometry('Wireframe', wireframe)]. *)
Definition _face_wireframe (faces : list HBObject)
  : list DisplayLineSegment3D :=
  fold_left (fun wireframe face =>
    let lw := if isinstance_Face face then 2%Z else 1%Z in
    let face3d := geometry face in
    let wireframe :=
      fold_left (fun w seg => append w (mkDisplayLineSegment3D seg lw))
                (Face3D.boundary_segments face3d) wireframe in
    match Face3D.holes face3d with
    | Some holes =>
        fold_left (fun w (hole : list Point3D.t) =>
          fold_left (fun w seg => append w (mkDisplayLineSegment3D seg lw))
                    (Face3D.boundary_segments face3d) w)
          holes wireframe
    | None => wireframe
    end)
    faces [].

(** [_room_wireframe(rooms)]: the segments of the returned
    [ContextGeometry('Wireframe', wireframe)]. *)
Definition _room_wireframe (rooms : list Room) : list DisplayLineSegment3D :=
  fold_left (fun wireframe room =>
    let wireframe :=
      fold_left (fun wireframe face =>
        let wireframe := _process_wireframe (face_obj face) wireframe 2 in
        let wireframe :=
          fold_left (fun w ap => _process_wireframe ap w 1)
                    (_apertures face) wireframe in
        fold_left (fun w dr => _process_wireframe dr w 1)
                  (_doors face) wireframe)
        (faces room) wireframe in
    fold_left (fun w shade =>
      let sh_geo := geometry shade in
      let w :=
        fold_left (fun w seg => append w (mkDisplayLineSegment3D seg 1))
                  (Face3D.boundary_segments sh_geo) w in
      match Face3D.holes sh_geo with
      | Some holes =>
          fold_left (fun w (hole : list Point3D.t) =>
            fold_left (fun w seg => append w (mkDisplayLineSegment3D seg 1))
                      (Face3D.boundary_segments sh_geo) w)
            holes w
      | None => w
      end)
      (room_shades room) wireframe)
    rooms [].

(** ** The plane type of ladybug_geometry

    [Plane], its constructor [Plane(n, o)], its attributes [n], [o], [y] and
    its methods [rotate] and [move] belong to the external geometry library,
    as does the float [math.pi] that is passed as an angle.  The label code
    is written against this interface. *)
Class PlaneLib : Type := {
  Plane : Type;
  Angle : Type;
  math_pi : Angle;
  Plane_init : Vector3D.t -> Point3D.t -> Plane;
  plane_n : Plane -> Vector3D.t;
  plane_o : Plane -> Point3D.t;
  plane_y : Plane -> Vector3D.t;
  Plane_rotate : Plane -> Vector3D.t -> Angle -> Point3D.t -> Plane;
  Plane_move : Plane -> Vector3D.t -> Plane
}.

(** What the library documents about these operations. *)

(** The plane keeps the origin it is built with. *)
Definition init_keeps_origin (L : PlaneLib) : Prop :=
  forall n o, plane_o (Plane_init n o) = o.

(** The constructor normalises the normal; the global up vector is a unit
    vector already. *)
Definition init_up_normal (L : PlaneLib) : Prop :=
  forall o, Vector3D.equiv (plane_n (Plane_init (Vector3D.mk 0 0 1) o))
                           (Vector3D.mk 0 0 1).

(** A rotation by [math.pi] about the plane's own normal through its own
    origin reverses the Y axis and keeps normal and origin. *)
Definition half_turn_reverses_y (L : PlaneLib) : Prop :=
  forall p,
    let p' := Plane_rotate p (plane_n p) math_pi (plane_o p) in
    Vector3D.equiv (plane_y p') (Vector3D.neg (plane_y p)) /\
    Vector3D.equiv (plane_n p') (plane_n p) /\
    Point3D.equiv (plane_o p') (plane_o p).

(** [move] translates the origin and keeps the axes. *)
Definition move_translates (L : PlaneLib) : Prop :=
  forall p v,
    Point3D.equiv (plane_o (Plane_move p v)) (Point3D.move (plane_o p) v) /\
    Vector3D.equiv (plane_y (Plane_move p v)) (plane_y p) /\
    Vector3D.equiv (plane_n (Plane_move p v)) (plane_n p).

(** ** Legend parameters and colour objects *)

Record LegendParameters : Type := mkLegendParameters {
  is_text_height_default : bool;
  text_height : Q;
  font : string;
  decimal_count : nat
}.

Record ColorRoom : Type := mkColorRoom {
  cr_attributes : list string;
  cr_rooms : list Room;
  cr_legend_parameters : LegendParameters
}.

Record ColorFace : Type := mkColorFace {
  cf_attributes : list string;
  cf_flat_geometry : list Face3D.t;
  cf_flat_faces : list HBObject;
  cf_legend_parameters : LegendParameters
}.

Section Labels.
Context {L : PlaneLib}.

Record DisplayText3D : Type := mkDisplayText3D {
  dt_text : string;
  dt_plane : Plane;
  dt_text_height : Q;
  dt_font : string;
  dt_horizontal_alignment : string;
  dt_vertical_alignment : string
}.

(** [len(s) if len(s) > 10 else 10] *)
Definition txt_len_of (s : string) : nat :=
  if (10 <? String.length s)%nat then String.length s else 10%nat.

(** [color_room_to_vis_set(color_room, include_wireframe, text_labels=True)]:
    the list [label_text] that fills the text [ContextGeometry]. *)
Definition color_room_to_vis_set_label_text (color_room : ColorRoom)
  : list DisplayText3D :=
  let lp := cr_legend_parameters color_room in
  let txt_height :=
    if is_text_height_default lp then None else Some (text_height lp) in
  let font := font lp in
  fold_left (fun label_text (it : string * Room) =>
    let (room_prop, room) := it in
    let cent_pt := Polyface3D.center (room_geometry room) in
    let base_plane := Plane_init (Vector3D.mk 0 0 1) cent_pt in
    let txt_h :=
      match txt_height with
      | None =>
          let txt_len := txt_len_of room_prop in
          (Point3D.x (Polyface3D.max (room_geometry room))
           - Point3D.x (Polyface3D.min (room_geometry room)))
          / inject_Z (Z.of_nat txt_len)
      | Some h => h
      end in
    let label :=
      mkDisplayText3D room_prop base_plane txt_h font "Center" "Middle" in
    append label_text label)
    (combine (cr_attributes color_room) (cr_rooms color_room)) [].

(** [color_face_to_vis_set(color_face, include_wireframe, text_labels=True)]:
    the list [label_text] that fills the text [ContextGeometry]. *)
Definition color_face_to_vis_set_label_text (color_face : ColorFace)
  : list DisplayText3D :=
  let lp := cf_legend_parameters color_face in
  let txt_height :=
    if is_text_height_default lp then None else Some (text_height lp) in
  let font := font lp in
  fold_left (fun label_text (it : string * Face3D.t) =>
    let (face_prop, f_geo) := it in
    if negb (String.eqb face_prop "N/A") then
      let cent_pt := Face3D.center f_geo in
      let base_plane := Plane_init (Face3D.normal f_geo) cent_pt in
      let base_plane :=
        if Qltb (Vector3D.z (plane_y base_plane)) 0
        then Plane_rotate base_plane (plane_n base_plane) math_pi
                          (plane_o base_plane)
        else base_plane in
      let txt_h :=
        match txt_height with
        | None =>
            let txt_len := txt_len_of face_prop in
            let largest_dim :=
              py_max (Point3D.x (Face3D.max f_geo)
                      - Point3D.x (Face3D.min f_geo))
                     (Point3D.y (Face3D.max f_geo)
                      - Point3D.y (Face3D.min f_geo)) in
            largest_dim / inject_Z (Z.of_nat (txt_len * 2))
        | Some h => h
        end in
      let m_vec :=
        if Qneqb (Vector3D.x (plane_n base_plane)) 0 then
          if Qltb (Vector3D.x (plane_n base_plane)) 0
          then plane_y base_plane else Vector3D.neg (plane_y base_plane)
        else
          if Qltb (Vector3D.z (plane_n base_plane)) 0
          then plane_y base_plane else Vector3D.neg (plane_y base_plane) in
      let base_plane := Plane_move base_plane (Vector3D.mul m_vec txt_h) in
      let label :=
        mkDisplayText3D face_prop base_plane txt_h font "Center" "Middle" in
      append label_text label
    else label_text)
    (combine (cf_attributes color_face) (cf_flat_geometry color_face)) [].

(** The wireframe layer added when [include_wireframe] is true. *)
Definition color_room_to_vis_set_wireframe (color_room : ColorRoom)
  : list DisplayLineSegment3D :=
  _room_wireframe (cr_rooms color_room).

Definition color_face_to_vis_set_wireframe (color_face : ColorFace)
  : list DisplayLineSegment3D :=
  _face_wireframe (cf_flat_faces color_face).

End Labels.

(** ** energy/colorobj.py *)

Module Energy.

Record ColorRoom : Type := mkColorRoom {
  matched_values : list Q;
  matched_rooms : list Room;
  rooms : list Room;
  legend_parameters : LegendParameters
}.

Record ColorFace : Type := mkColorFace {
  cf_matched_values : list Q;
  cf_matched_flat_geometry : list Face3D.t;
  cf_faces : list Face;
  cf_legend_parameters : LegendParameters
}.

Section EnergyLabels.
Context {L : PlaneLib}.

(** Python's ['%.{}f'.format(decimal_count) % value]: the builtin fixed-point
    formatting of a float with a given number of decimals. *)
Variable percent_f : nat -> Q -> string.

(** [_process_leg_par_for_text(color_obj)], on the legend parameters of the
    colour object; [f_str] is returned as the formatter it denotes. *)
Definition _process_leg_par_for_text (lp : LegendParameters)
  : option Q * string * (Q -> string) :=
  let txt_height :=
    if is_text_height_default lp then None else Some (text_height lp) in
  let font := font lp in
  let f_str := percent_f (decimal_count lp) in
  (txt_height, font, f_str).

(** [energy_color_room_to_vis_set(color_room, text_labels=True)]: the list
    [label_text]. *)
Definition energy_color_room_to_vis_set_label_text (color_room : ColorRoom)
  : list DisplayText3D :=
  let '(txt_height, font, f_str) :=
    _process_leg_par_for_text (legend_parameters color_room) in
  fold_left (fun label_text (it : Q * Room) =>
    let (room_val, room) := it in
    let cent_pt := Polyface3D.center (room_geometry room) in
    let base_plane := Plane_init (Vector3D.mk 0 0 1) cent_pt in
    let room_prop := f_str room_val in
    let txt_h :=
      match txt_height with
      | None =>
          let txt_len := txt_len_of room_prop in
          (Point3D.x (Polyface3D.max (room_geometry room))
           - Point3D.x (Polyface3D.min (room_geometry room)))
          / inject_Z (Z.of_nat txt_len)
      | Some h => h
      end in
    let label :=
      mkDisplayText3D room_prop base_plane txt_h font "Center" "Middle" in
    append label_text label)
    (combine (matched_values color_room) (matched_rooms color_room)) [].

(** [color_face_to_vis_set(color_face, text_labels=True)] of the energy
    module: the list [label_text]. *)
Definition color_face_to_vis_set_label_text (color_face : ColorFace)
  : list DisplayText3D :=
  let '(txt_height, font, f_str) :=
    _process_leg_par_for_text (cf_legend_parameters color_face) in
  fold_left (fun label_text (it : Q * Face3D.t) =>
    let (face_val, f_geo) := it in
    let cent_pt := Face3D.center f_geo in
    let base_plane := Plane_init (Face3D.normal f_geo) cent_pt in
    let face_prop := f_str face_val in
    let base_plane :=
      if Qltb (Vector3D.z (plane_y base_plane)) 0
      then Plane_rotate base_plane (plane_n base_plane) math_pi
                        (plane_o base_plane)
      else base_plane in
    let txt_h :=
      match txt_height with
      | None =>
          let txt_len := txt_len_of face_prop in
          let largest_dim :=
            py_max (Point3D.x (Face3D.max f_geo)
                    - Point3D.x (Face3D.min f_geo))
                   (Point3D.y (Face3D.max f_geo)
                    - Point3D.y (Face3D.min f_geo)) in
          largest_dim / inject_Z (Z.of_nat (txt_len * 2))
      | Some h => h
      end in
    let m_vec :=
      if Qneqb (Vector3D.x (plane_n base_plane)) 0 then
        if Qltb (Vector3D.x (plane_n base_plane)) 0
        then plane_y base_plane else Vector3D.neg (plane_y base_plane)
      else
        if Qltb (Vector3D.z (plane_n base_plane)) 0
        then plane_y base_plane else Vector3D.neg (plane_y base_plane) in
    let base_plane := Plane_move base_plane (Vector3D.mul m_vec txt_h) in
    let label :=
      mkDisplayText3D face_prop base_plane txt_h font "Center" "Middle" in
    append label_text label)
    (combine (cf_matched_values color_face)
             (cf_matched_flat_geometry color_face)) [].

(** The wireframe built when [include_wireframe] is true. *)
Definition color_face_to_vis_set_wireframe (color_face : ColorFace)
  : list DisplayLineSegment3D :=
  fold_left (fun wireframe face =>
    let wireframe := _process_wireframe (face_obj face) wireframe 2 in
    let wireframe :=
      fold_left (fun w ap => _process_wireframe ap w 1)
                (_apertures face) wireframe in
    fold_left (fun w dr => _process_wireframe dr w 1)
              (_doors face) wireframe)
    (cf_faces color_face) [].

End EnergyLabels.
End Energy.

(** ** face.py and aperture.py *)

(** What a call can do: return a value or raise.  [AttributeError] is what
    [getattr] raises; [InvalidConfiguration] and [InvalidGeometry] are the
    error classes named by the specification, which no statement of the
    source raises. *)
Inductive exn : Type :=
| AttributeError (name : string)
| InvalidConfiguration
| InvalidGeometry.

Inductive outcome (A : Type) : Type :=
| Returned (a : A)
| Raised (e : exn).
Arguments Returned {A} a.
Arguments Raised {A} e.

Definition bind {A B : Type} (m : outcome A) (k : A -> outcome B)
  : outcome B :=
  match m with
  | Returned a => k a
  | Raised e => Raised e
  end.

Notation "x <- m ;; k" := (bind m (fun x => k))
  (at level 61, m at next level, right associativity).

(** [for x in xs: s = body(s, x)], stopping at the first exception. *)
Fixpoint for_each {A S : Type} (xs : list A) (body : S -> A -> outcome S)
    (s : S) : outcome S :=
  match xs with
  | [] => Returned s
  | x :: rest => s' <- body s x ;; for_each rest body s'
  end.

(** [c.lower()] on one character of ASCII text. *)
Definition lower_ascii (c : ascii) : ascii :=
  let n := nat_of_ascii c in
  if ((65 <=? n) && (n <=? 90))%nat then ascii_of_nat (n + 32) else c.

(** [s.lower()] *)
Fixpoint lower (s : string) : string :=
  match s with
  | EmptyString => EmptyString
  | String c rest => String (lower_ascii c) (lower rest)
  end.

(** [getattr(obj, name)] where a colour is expected: the two colour
    attributes of honeybee objects; any other name has no colour. *)
Definition getattr (obj : HBObject) (name : string) : outcome Color :=
  if String.eqb name "type_color" then Returned (type_color obj)
  else if String.eqb name "bc_color" then Returned (bc_color obj)
  else Raised (AttributeError name).

Record DisplayFace3D : Type := mkDisplayFace3D {
  df_geometry : Face3D.t;
  df_color : Color;
  df_display_mode : string
}.

Record ContextGeometry : Type := mkContextGeometry {
  cg_identifier : string;
  cg_display_name : string;
  cg_geometry : list DisplayFace3D
}.

Record VisualizationSet : Type := mkVisualizationSet {
  vs_identifier : string;
  vs_display_name : string;
  vs_geometry : list ContextGeometry
}.

(** [_add_display_shade(shaded_obj, dis_geos, color_by_attr, d_mod)];
    returns [dis_geos] after the call. *)
Definition _add_display_shade (shaded_obj : HBObject)
    (dis_geos : list DisplayFace3D) (color_by_attr d_mod : string)
  : outcome (list DisplayFace3D) :=
  for_each (shades shaded_obj) (fun dis_geos shd =>
    s_col <- getattr shd color_by_attr ;;
    Returned (append dis_geos (mkDisplayFace3D (geometry shd) s_col d_mod)))
    dis_geos.

(** [_face_display_geometry(face, color_by_attr, d_mod='SurfaceWithEdges')] *)
Definition _face_display_geometry (face : Face) (color_by_attr d_mod : string)
  : outcome (list DisplayFace3D) :=
  let dis_geos := [] in
  f_col <- getattr (face_obj face) color_by_attr ;;
  let dis_geos :=
    append dis_geos (mkDisplayFace3D (punched_geometry face) f_col d_mod) in
  dis_geos <- _add_display_shade (face_obj face) dis_geos color_by_attr d_mod ;;
  dis_geos <- for_each (_apertures face) (fun dis_geos ap =>
      a_col <- getattr ap color_by_attr ;;
      let dis_geos :=
        append dis_geos (mkDisplayFace3D (geometry ap) a_col d_mod) in
      _add_display_shade ap dis_geos color_by_attr d_mod) dis_geos ;;
  for_each (_doors face) (fun dis_geos dr =>
      d_col <- getattr dr color_by_attr ;;
      let dis_geos :=
        append dis_geos (mkDisplayFace3D (geometry dr) d_col d_mod) in
      _add_display_shade dr dis_geos color_by_attr d_mod) dis_geos.

(** [face_to_vis_set(face, color_by='type')] *)
Definition face_to_vis_set (face : Face) (color_by : string)
  : outcome VisualizationSet :=
  let color_by_attr :=
    if String.eqb (lower color_by) "type" then "type_color"%string
    else "bc_color"%string in
  dis_geos <- _face_display_geometry face color_by_attr "SurfaceWithEdges" ;;
  let con_geo :=
    mkContextGeometry (identifier (face_obj face))
                      (display_name (face_obj face)) dis_geos in
  Returned (mkVisualizationSet (identifier (face_obj face))
                               (display_name (face_obj face)) [con_geo]).

(** [aperture_to_vis_set(aperture, color_by='type')] *)
Definition aperture_to_vis_set (aperture : HBObject) (color_by : string)
  : outcome VisualizationSet :=
  let color_by_attr :=
    if String.eqb (lower color_by) "type" then "type_color"%string
    else "bc_color"%string in
  let d_mod := "SurfaceWithEdges"%string in
  let dis_geos := [] in
  a_col <- getattr aperture color_by_attr ;;
  let dis_geos :=
    append dis_geos (mkDisplayFace3D (geometry aperture) a_col d_mod) in
  dis_geos <- for_each (shades aperture) (fun dis_geos shd =>
      s_col <- getattr shd color_by_attr ;;
      Returned (append dis_geos (mkDisplayFace3D (geometry shd) s_col d_mod)))
      dis_geos ;;
  let con_geo :=
    mkContextGeometry (identifier aperture) (display_name aperture)
                      dis_geos in
  Returned (mkVisualizationSet (identifier aperture) (display_name aperture)
                               [con_geo]).

(** ** An executable plane library

    Planes over exact rationals with unnormalised axes; angles are counted
    in half turns, the only rotation the label code asks for.  On unit
    normals the axes are those of the geometry library: the X axis is
    [(1, 0, 0)] for a vertical normal and [(n.y, -n.x, 0)] otherwise, and
    the Y axis is [n x X]. *)

Module ExactPlane.

Record plane : Type := mk {
  n : Vector3D.t;
  o : Point3D.t;
  x : Vector3D.t
}.

Definition y (p : plane) : Vector3D.t := Vector3D.cross (n p) (x p).

Definition init (nv : Vector3D.t) (pt : Point3D.t) : plane :=
  let xv :=
    if Qeq_bool (Vector3D.x nv) 0 && Qeq_bool (Vector3D.y nv) 0
    then Vector3D.mk 1 0 0
    else Vector3D.mk (Vector3D.y nv) (- Vector3D.x nv) 0 in
  mk nv pt xv.

(** The half turn of [v] about the line spanned by [a]. *)
Definition half_turn (a v : Vector3D.t) : Vector3D.t :=
  let c := 2 * Vector3D.dot a v / Vector3D.dot a a in
  Vector3D.sub (Vector3D.mul a c) v.

Definition half_turn_point (a : Vector3D.t) (origin pt : Point3D.t)
  : Point3D.t :=
  let d := Vector3D.mk (Point3D.x pt - Point3D.x origin)
                       (Point3D.y pt - Point3D.y origin)
                       (Point3D.z pt - Point3D.z origin) in
  Point3D.move origin (half_turn a d).

Definition rotate (p : plane) (axis : Vector3D.t) (angle : Z)
    (origin : Point3D.t) : plane :=
  if Z.odd angle
  then mk (half_turn axis (n p)) (half_turn_point axis origin (o p))
          (half_turn axis (x p))
  else p.

Definition move (p : plane) (v : Vector3D.t) : plane :=
  mk (n p) (Point3D.move (o p) v) (x p).

End ExactPlane.

#[export] Instance exact_planes : PlaneLib := {|
  Plane := ExactPlane.plane;
  Angle := Z;
  math_pi := 1%Z;
  Plane_init := ExactPlane.init;
  plane_n := ExactPlane.n;
  plane_o := ExactPlane.o;
  plane_y := ExactPlane.y;
  Plane_rotate := ExactPlane.rotate;
  Plane_move := ExactPlane.move
|}.

(** ** Vocabulary of the properties *)

(** The hole rings of a face, none when it has no holes. *)
Definition hole_rings (f : Face3D.t) : list (list Point3D.t) :=
  match Face3D.holes f with Some hs => hs | None => [] end.

(** One pass over the boundary ring at a given width. *)
Definition boundary_pass (f : Face3D.t) (lw : Z) : list DisplayLineSegment3D :=
  map (fun seg => mkDisplayLineSegment3D seg lw) (Face3D.boundary_segments f).

(** What is drawn for one geometry: a boundary pass, then one more boundary
    pass for each hole ring. *)
Definition geometry_segments (f : Face3D.t) (lw : Z)
  : list DisplayLineSegment3D :=
  boundary_pass f lw ++ flat_map (fun _ => boundary_pass f lw) (hole_rings f).

(** What is drawn for the shades attached to an object. *)
Definition shade_segments (o : HBObject) : list DisplayLineSegment3D :=
  flat_map (fun shade => geometry_segments (geometry shade) 1) (shades o).

(** The object with another list of shades. *)
Definition with_shades (o : HBObject) (ss : list HBObject) : HBObject :=
  mkHBObject (kind o) (identifier o) (display_name o) (geometry o)
             (type_color o) (bc_color o) ss.

(** The object with the shades of each of its shades replaced by [sub]. *)
Definition with_sub_shades (sub : HBObject -> list HBObject) (o : HBObject)
  : HBObject :=
  with_shades o (map (fun shade => with_shades shade (sub shade)) (shades o)).

(** The text height configured in the legend parameters, if any. *)
Definition explicit_height (lp : LegendParameters) : option Q :=
  if is_text_height_default lp then None else Some (text_height lp).

Section LabelVocabulary.
Context {L : PlaneLib}.

(** The plane of a face label before it is moved. *)
Definition oriented_plane (f_geo : Face3D.t) : Plane :=
  let base_plane := Plane_init (Face3D.normal f_geo) (Face3D.center f_geo) in
  if Qltb (Vector3D.z (plane_y base_plane)) 0
  then Plane_rotate base_plane (plane_n base_plane) math_pi
                    (plane_o base_plane)
  else base_plane.

(** X extent of a room, and the larger of the X and Y extents of a face. *)
Definition room_extent (room : Room) : Q :=
  Point3D.x (Polyface3D.max (room_geometry room))
  - Point3D.x (Polyface3D.min (room_geometry room)).

Definition face_extent (f_geo : Face3D.t) : Q :=
  py_max (Point3D.x (Face3D.max f_geo) - Point3D.x (Face3D.min f_geo))
         (Point3D.y (Face3D.max f_geo) - Point3D.y (Face3D.min f_geo)).

Definition room_txt_h (txt_height : option Q) (room_prop : string)
    (room : Room) : Q :=
  match txt_height with
  | None => room_extent room / inject_Z (Z.of_nat (txt_len_of room_prop))
  | Some h => h
  end.

Definition face_txt_h (txt_height : option Q) (face_prop : string)
    (f_geo : Face3D.t) : Q :=
  match txt_height with
  | None => face_extent f_geo / inject_Z (Z.of_nat (txt_len_of face_prop * 2))
  | Some h => h
  end.

(** The direction in which the code moves the origin of a face label. *)
Definition nudge_direction (p : Plane) : Vector3D.t :=
  if Qneqb (Vector3D.x (plane_n p)) 0 then
    if Qltb (Vector3D.x (plane_n p)) 0
    then plane_y p else Vector3D.neg (plane_y p)
  else
    if Qltb (Vector3D.z (plane_n p)) 0
    then plane_y p else Vector3D.neg (plane_y p).

(** The direction rule as the specification words it: along -Y when
    normal.X > 0 else +Y; for normal.X = 0, along -Y when normal.Z < 0 else
    +Y. *)
Definition specified_direction (p : Plane) : Vector3D.t :=
  if Qneqb (Vector3D.x (plane_n p)) 0 then
    if Qltb 0 (Vector3D.x (plane_n p))
    then Vector3D.neg (plane_y p) else plane_y p
  else
    if Qltb (Vector3D.z (plane_n p)) 0
    then Vector3D.neg (plane_y p) else plane_y p.

(** The label of one room and of one face. *)
Definition room_label (txt_height : option Q) (fnt : string)
    (it : string * Room) : DisplayText3D :=
  mkDisplayText3D (fst it)
    (Plane_init (Vector3D.mk 0 0 1) (Polyface3D.center (room_geometry (snd it))))
    (room_txt_h txt_height (fst it) (snd it)) fnt "Center" "Middle".

Definition face_label (txt_height : option Q) (fnt : string)
    (it : string * Face3D.t) : DisplayText3D :=
  let txt_h := face_txt_h txt_height (fst it) (snd it) in
  let p := oriented_plane (snd it) in
  mkDisplayText3D (fst it)
    (Plane_move p (Vector3D.mul (nudge_direction p) txt_h))
    txt_h fnt "Center" "Middle".

(** Faces whose attribute is not the placeholder ['N/A']. *)
Definition labelled (it : string * Face3D.t) : bool :=
  negb (String.eqb (fst it) "N/A").

(** The origin of [label] is the origin of [p] moved by the text height of
    the label along the direction [d]. *)
Definition moved_along (p : Plane) (d : Vector3D.t) (label : DisplayText3D)
  : Prop :=
  Point3D.equiv (plane_o (dt_plane label))
    (Point3D.move (plane_o p) (Vector3D.mul d (dt_text_height label))).

(** The direction rule of the code, case by case. *)
Definition coded_rule (p : Plane) (d : Vector3D.t) : Prop :=
  let nx := Vector3D.x (plane_n p) in
  let nz := Vector3D.z (plane_n p) in
  (0 < nx -> d = Vector3D.neg (plane_y p)) /\
  (nx < 0 -> d = plane_y p) /\
  (nx == 0 -> nz < 0 -> d = plane_y p) /\
  (nx == 0 -> 0 <= nz -> d = Vector3D.neg (plane_y p)).

End LabelVocabulary.

(** The names of the two colour attributes. *)
Definition is_color_attr (name : string) : Prop :=
  name = "type_color"%string \/ name = "bc_color"%string.

(** What [getattr] yields for the two colour attributes. *)
Definition attr_color (color_by_attr : string) (o : HBObject) : Color :=
  if String.eqb color_by_attr "type_color" then type_color o else bc_color o.

(** The display faces of the shades of an object, of an object with its
    shades, and of a face with its shades, apertures and doors. *)
Definition shade_display (color_by_attr d_mod : string) (o : HBObject)
  : list DisplayFace3D :=
  map (fun shd =>
         mkDisplayFace3D (geometry shd) (attr_color color_by_attr shd) d_mod)
      (shades o).

Definition obj_display (color_by_attr d_mod : string) (o : HBObject)
  : list DisplayFace3D :=
  mkDisplayFace3D (geometry o) (attr_color color_by_attr o) d_mod
  :: shade_display color_by_attr d_mod o.

Definition face_display (color_by_attr d_mod : string) (face : Face)
  : list DisplayFace3D :=
  (mkDisplayFace3D (punched_geometry face)
                   (attr_color color_by_attr (face_obj face)) d_mod
   :: shade_display color_by_attr d_mod (face_obj face))
  ++ flat_map (obj_display color_by_attr d_mod) (_apertures face)
  ++ flat_map (obj_display color_by_attr d_mod) (_doors face).

(** The visualization set with one context geometry named after [o]. *)
Definition vis_set_of (o : HBObject) (dis_geos : list DisplayFace3D)
  : VisualizationSet :=
  mkVisualizationSet (identifier o) (display_name o)
    [mkContextGeometry (identifier o) (display_name o) dis_geos].

(** ** Sample inputs *)

Definition pt (a b c : Z) : Point3D.t :=
  Point3D.mk (inject_Z a) (inject_Z b) (inject_Z c).

(** A 10 x 10 horizontal square at height 3, normal up, no holes. *)
Definition roof_geo : Face3D.t :=
  Face3D.mk [pt 0 0 3; pt 10 0 3; pt 10 10 3; pt 0 10 3] None
            (pt 5 5 3) (Vector3D.mk 0 0 1) (pt 0 0 3) (pt 10 10 3).

(** A 10 x 3 vertical wall in the plane y = 0, normal along +Y, with one
    square hole. *)
Definition wall_geo : Face3D.t :=
  Face3D.mk [pt 0 0 0; pt 10 0 0; pt 10 0 3; pt 0 0 3]
            (Some [[pt 4 0 1; pt 6 0 1; pt 6 0 2; pt 4 0 2]])
            (Point3D.mk 5 0 (3 # 2)) (Vector3D.mk 0 1 0) (pt 0 0 0) (pt 10 0 3).

(** A small overhang, once bare and once carrying a shade of its own. *)
Definition fin_geo : Face3D.t :=
  Face3D.mk [pt 0 0 3; pt 10 0 3; pt 10 (-1) 3] None
            (pt 7 0 3) (Vector3D.mk 0 0 1) (pt 0 (-1) 3) (pt 10 0 3).

Definition sub_fin : HBObject :=
  mkHBObject KShade "sub_fin" "Sub fin" roof_geo (1, 1, 1)%Z (2, 2, 2)%Z [].

Definition fin : HBObject :=
  mkHBObject KShade "fin" "Fin" fin_geo (3, 3, 3)%Z (4, 4, 4)%Z [sub_fin].

Definition wall : HBObject :=
  mkHBObject KFace "wall" "Wall" wall_geo (5, 5, 5)%Z (6, 6, 6)%Z [fin].

Definition window_geo : Face3D.t :=
  Face3D.mk [pt 4 0 1; pt 6 0 1; pt 6 0 2; pt 4 0 2] None
            (Point3D.mk 5 0 (3 # 2)) (Vector3D.mk 0 1 0) (pt 4 0 1) (pt 6 0 2).

Definition window : HBObject :=
  mkHBObject KAperture "window" "Window" window_geo (7, 7, 7)%Z (8, 8, 8)%Z
             [fin].

Definition wall_face : Face := mkFace wall wall_geo [window] [].

Definition default_legend : LegendParameters :=
  mkLegendParameters true 1 "Arial" 2.

Definition legend_with_height (h : Q) : LegendParameters :=
  mkLegendParameters false h "Arial" 2.

(** A room with centroid (5, 5, 3) and X extent 10. *)
Definition office_room : Room :=
  mkRoom (Polyface3D.mk (pt 5 5 3) (pt 0 0 0) (pt 10 10 6)) [] [].

Definition office (lp : LegendParameters) : ColorRoom :=
  mkColorRoom ["Office"%string] [office_room] lp.

Definition roof_and_wall (lp : LegendParameters) : ColorFace :=
  mkColorFace ["Roof"%string; "N/A"%string; "ExteriorWall"%string]
              [roof_geo; fin_geo; wall_geo] [] lp.

(** ** colorobj.py: the analysis branch and the names of the sets *)

(** Python's [dict], as the list of its items in insertion order. *)
Module PyDict.
Section Dict.
Variables K V : Type.
Variable eqb : K -> K -> bool.

Definition t : Type := list (K * V).

(** [d[k] = v]: an existing key keeps its place and takes the new value, a
    new key goes to the end. *)
Fixpoint setitem (d : t) (k : K) (v : V) : t :=
  match d with
  | [] => [(k, v)]
  | (k', v') :: rest =>
      if eqb k k' then (k', v) :: rest else (k', v') :: setitem rest k v
  end.

(** [d[k]], [None] standing for [KeyError]. *)
Fixpoint getitem (d : t) (k : K) : option V :=
  match d with
  | [] => None
  | (k', v') :: rest => if eqb k k' then Some v' else getitem rest k
  end.

(** [d.items()] *)
Definition items (d : t) : list (K * V) := d.

End Dict.
End PyDict.

(** [enumerate(xs)], counting from [i]. *)
Fixpoint enumerate_from {A : Type} (i : nat) (xs : list A) : list (nat * A) :=
  match xs with
  | [] => []
  | x :: rest => (i, x) :: enumerate_from (S i) rest
  end.

Definition enumerate {A : Type} (xs : list A) : list (nat * A) :=
  enumerate_from 0 xs.

(** [attr_dict = {i: val for i, val in enumerate(attributes_unique)}] *)
Definition attr_dict (attributes_unique : list string)
  : PyDict.t nat string :=
  fold_left (fun d (it : nat * string) =>
               PyDict.setitem Nat.eqb d (fst it) (snd it))
            (enumerate attributes_unique) [].

(** [attr_dict_rev = {val: i for i, val in attr_dict.items()}] *)
Definition attr_dict_rev (attributes_unique : list string)
  : PyDict.t string nat :=
  fold_left (fun d (it : nat * string) =>
               PyDict.setitem String.eqb d (snd it) (fst it))
            (PyDict.items (attr_dict attributes_unique)) [].

(** A result that may be a [KeyError]. *)
Inductive keyed (A : Type) : Type :=
| Got (a : A)
| KeyError (key : string).
Arguments Got {A} a.
Arguments KeyError {A} key.

(** [tuple(d[r_attr] for r_attr in attributes)] *)
Fixpoint lookup_each (d : PyDict.t string nat) (attributes : list string)
  : keyed (list nat) :=
  match attributes with
  | [] => Got []
  | r_attr :: rest =>
      match PyDict.getitem String.eqb d r_attr with
      | None => KeyError r_attr
      | Some i =>
          match lookup_each d rest with
          | Got found => Got (i :: found)
          | KeyError k => KeyError k
          end
      end
  end.

(** The [values] of the [VisualizationData] that [color_room_to_vis_set] and
    [color_face_to_vis_set] build when [text_labels] is false. *)
Definition analysis_values (attributes_unique attributes : list string)
  : keyed (list nat) :=
  lookup_each (attr_dict_rev attributes_unique) attributes.

(** [c.upper()] on one character of ASCII text. *)
Definition upper_ascii (c : ascii) : ascii :=
  let n := nat_of_ascii c in
  if ((97 <=? n) && (n <=? 122))%nat then ascii_of_nat (n - 32) else c.

(** Whether a character of ASCII text is a letter. *)
Definition is_cased (c : ascii) : bool :=
  let n := nat_of_ascii c in
  (((65 <=? n) && (n <=? 90)) || ((97 <=? n) && (n <=? 122)))%nat.

(** [s.title()]: a letter that follows a letter is lowered, any other letter
    is raised. *)
Fixpoint title_from (previous_is_cased : bool) (s : string) : string :=
  match s with
  | EmptyString => EmptyString
  | String c rest =>
      String (if previous_is_cased then lower_ascii c else upper_ascii c)
             (title_from (is_cased c) rest)
  end.

Definition title (s : string) : string := title_from false s.

(** [s.replace(old, new)] for one-character [old] and [new]. *)
Fixpoint replace_char (old new : ascii) (s : string) : string :=
  match s with
  | EmptyString => EmptyString
  | String c rest =>
      String (if Ascii.eqb c old then new else c) (replace_char old new rest)
  end.

(** [attr_name_end.replace('_', ' ').title()] *)
Definition attr_title (attr_name_end : string) : string :=
  title (replace_char "_" " " attr_name_end).

(** Identifier and display name of the set built by
    [color_room_to_vis_set] and by [color_face_to_vis_set]. *)
Definition color_room_vis_set_identifier (attr_name : string) : string :=
  String.append "Room_" attr_name.

Definition color_room_vis_set_display_name (attr_name_end : string)
  : string :=
  String.append "Room " (attr_title attr_name_end).

Definition color_face_vis_set_identifier (attr_name : string) : string :=
  String.append "Face_" attr_name.

Definition color_face_vis_set_display_name (attr_name_end : string)
  : string :=
  String.append "Face " (attr_title attr_name_end).

(** ** More vocabulary *)

(** Segments drawn for one geometry: boundary points times one plus the
    number of holes. *)
Definition ring_count (f : Face3D.t) : nat :=
  (length (Face3D.boundary f) * (1 + Face3D.hole_count f))%nat.

(** Everything [_process_wireframe] draws for an object. *)
Definition object_segments (o : HBObject) (lw : Z)
  : list DisplayLineSegment3D :=
  geometry_segments (geometry o) lw ++ shade_segments o.

(** What is drawn for a face with its apertures and doors, and for a room. *)
Definition face_segments (face : Face) : list DisplayLineSegment3D :=
  object_segments (face_obj face) 2
  ++ flat_map (fun ap => object_segments ap 1) (_apertures face)
  ++ flat_map (fun dr => object_segments dr 1) (_doors face).

Definition room_segments (room : Room) : list DisplayLineSegment3D :=
  flat_map face_segments (faces room)
  ++ flat_map (fun shade => geometry_segments (geometry shade) 1)
              (room_shades room).

(** The segments of a given width. *)
Definition of_width (lw : Z) (segs : list DisplayLineSegment3D)
  : list DisplayLineSegment3D :=
  filter (fun d => Z.eqb (line_width d) lw) segs.

(** The room with the shades of each of its shades replaced by [sub]. *)
Definition room_with_sub_shades (sub : HBObject -> list HBObject)
    (room : Room) : Room :=
  mkRoom (room_geometry room) (faces room)
         (map (fun shade => with_shades shade (sub shade))
              (room_shades room)).

(** An aperture taken as a face without apertures and doors. *)
Definition as_face (o : HBObject) : Face := mkFace o (geometry o) [] [].

(** The face with the shades of the shades of the face, of its apertures
    and of its doors replaced by [sub]. *)
Definition face_with_sub_shades (sub : HBObject -> list HBObject)
    (face : Face) : Face :=
  mkFace (with_sub_shades sub (face_obj face)) (punched_geometry face)
         (map (with_sub_shades sub) (_apertures face))
         (map (with_sub_shades sub) (_doors face)).

(** A stand-in formatter for the samples. *)
Definition sample_percent_f (decimals : nat) (v : Q) : string :=
  if Qeq_bool v 21 then "21.00"%string else "N/A"%string.

(** Case analysis over the 256 characters. *)
Ltac by_characters c :=
  destruct c as [[] [] [] [] [] [] [] []]; vm_compute;
  try reflexivity; try discriminate; auto.

(** * Properties *)

(** ** The exact plane library meets the documented behaviour *)

Lemma exact_init_keeps_origin : init_keeps_origin exact_planes.
Proof. intros nv pt. reflexivity. Qed.

Lemma exact_init_up_normal : init_up_normal exact_planes.
Proof. intros pt. repeat split; reflexivity. Qed.

Lemma exact_move_translates : move_translates exact_planes.
Proof. intros p v. repeat split; reflexivity. Qed.

Lemma sum_squares_zero (a b c : Q) :
  a * a + b * b + c * c == 0 -> a == 0 /\ b == 0 /\ c == 0.
Proof. intros H. repeat split; nra. Qed.

Lemma exact_half_turn_reverses_y : half_turn_reverses_y exact_planes.
Proof.
  intros [[nx ny nz] [ox oy oz] [xx xy xz]].
  cbv [exact_planes Plane_rotate plane_y plane_n plane_o math_pi
       ExactPlane.rotate ExactPlane.y ExactPlane.n ExactPlane.o ExactPlane.x
       ExactPlane.half_turn ExactPlane.half_turn_point
       Vector3D.equiv Point3D.equiv Vector3D.neg Vector3D.cross Vector3D.sub
       Vector3D.mul Vector3D.dot Point3D.move
       Vector3D.x Vector3D.y Vector3D.z Point3D.x Point3D.y Point3D.z].
  simpl.
  destruct (Qeq_dec (nx * nx + ny * ny + nz * nz) 0) as [Hz | Hnz].
  - destruct (sum_squares_zero Hz) as (Hx & Hy & Hz').
    rewrite Hx, Hy, Hz'. unfold Qdiv. repeat split; ring.
  - repeat split; field; exact Hnz.
Qed.

(** ** Loops that append *)

Section AppendLoops.
Variables A B : Type.

Lemma fold_append_map (f : A -> B) (xs : list A) :
  forall w, fold_left (fun w x => append w (f x)) xs w = w ++ map f xs.
Proof.
  induction xs as [| x xs IH]; intros w; simpl.
  - now rewrite app_nil_r.
  - rewrite IH. unfold append. now rewrite <- app_assoc.
Qed.

Lemma fold_append_flat_map (body : list B -> A -> list B)
    (h : A -> list B) (xs : list A) :
  (forall w x, body w x = w ++ h x) ->
  forall w, fold_left body xs w = w ++ flat_map h xs.
Proof.
  intros Hbody. induction xs as [| x xs IH]; intros w; simpl.
  - now rewrite app_nil_r.
  - rewrite IH, Hbody. now rewrite <- app_assoc.
Qed.

Lemma flat_map_const_repeat (l : list B) (xs : list A) :
  flat_map (fun _ => l) xs = concat (repeat l (length xs)).
Proof.
  induction xs as [| x xs IH]; simpl; [reflexivity | now rewrite IH].
Qed.

Lemma length_concat_repeat (l : list B) (k : nat) :
  length (concat (repeat l k)) = (length l * k)%nat.
Proof.
  induction k as [| k IH]; simpl.
  - now rewrite Nat.mul_0_r.
  - rewrite length_app, IH. lia.
Qed.

End AppendLoops.

(** ** Boundary segments *)

Lemma length_segments_from (first : Point3D.t) (pts : list Point3D.t) :
  length (Face3D.segments_from first pts) = length pts.
Proof.
  induction pts as [| p rest IH]; simpl; [reflexivity |].
  destruct rest as [| q rest']; [reflexivity |].
  simpl in *. now rewrite IH.
Qed.

Lemma length_boundary_segments (f : Face3D.t) :
  length (Face3D.boundary_segments f) = length (Face3D.boundary f).
Proof.
  unfold Face3D.boundary_segments.
  destruct (Face3D.boundary f) as [| p0 rest] eqn:E; [reflexivity |].
  apply length_segments_from.
Qed.

Lemma length_boundary_pass (f : Face3D.t) (lw : Z) :
  length (boundary_pass f lw) = length (Face3D.boundary f).
Proof.
  unfold boundary_pass. rewrite length_map. apply length_boundary_segments.
Qed.

Lemma no_holes_no_rings (f : Face3D.t) :
  Face3D.has_holes f = false -> hole_rings f = [] /\ Face3D.hole_count f = 0%nat.
Proof.
  unfold Face3D.has_holes, hole_rings, Face3D.hole_count.
  destruct (Face3D.holes f); [discriminate | now split].
Qed.

Lemma length_hole_rings (f : Face3D.t) :
  length (hole_rings f) = Face3D.hole_count f.
Proof.
  unfold hole_rings, Face3D.hole_count. now destruct (Face3D.holes f).
Qed.

(** ** The wireframe loops, in closed form *)

Lemma draw_geometry (f : Face3D.t) (lw : Z) (w : list DisplayLineSegment3D) :
  match Face3D.holes f with
  | Some holes =>
      fold_left (fun w (hole : list Point3D.t) =>
        fold_left (fun w seg => append w (mkDisplayLineSegment3D seg lw))
                  (Face3D.boundary_segments f) w)
        holes
        (fold_left (fun w seg => append w (mkDisplayLineSegment3D seg lw))
                   (Face3D.boundary_segments f) w)
  | None =>
      fold_left (fun w seg => append w (mkDisplayLineSegment3D seg lw))
                (Face3D.boundary_segments f) w
  end = w ++ geometry_segments f lw.
Proof.
  unfold geometry_segments, hole_rings, boundary_pass.
  destruct (Face3D.holes f) as [hs |].
  - rewrite fold_append_flat_map
      with (h := fun _ : list Point3D.t =>
                   map (fun seg => mkDisplayLineSegment3D seg lw)
                       (Face3D.boundary_segments f)).
    + rewrite fold_append_map. now rewrite <- app_assoc.
    + intros w' _. apply fold_append_map.
  - rewrite fold_append_map. simpl. now rewrite app_nil_r.
Qed.

Lemma process_wireframe_closed_form (geo_obj : HBObject)
    (wireframe : list DisplayLineSegment3D) (lw : Z) :
  _process_wireframe geo_obj wireframe lw
  = wireframe ++ geometry_segments (geometry geo_obj) lw
              ++ shade_segments geo_obj.
Proof.
  unfold _process_wireframe, shade_segments.
  rewrite fold_append_flat_map
    with (h := fun shade => geometry_segments (geometry shade) 1).
  - pose proof (draw_geometry (geometry geo_obj) lw wireframe) as Hown.
    destruct (Face3D.holes (geometry geo_obj));
      rewrite Hown; now rewrite <- app_assoc.
  - intros w shade.
    pose proof (draw_geometry (geometry shade) 1 w) as Hsh.
    destruct (Face3D.holes (geometry shade)); exact Hsh.
Qed.

Lemma face_wireframe_closed_form (faces : list HBObject) :
  _face_wireframe faces
  = flat_map (fun face =>
      geometry_segments (geometry face)
                        (if isinstance_Face face then 2 else 1)%Z) faces.
Proof.
  unfold _face_wireframe.
  rewrite fold_append_flat_map
    with (h := fun face =>
      geometry_segments (geometry face)
                        (if isinstance_Face face then 2 else 1)%Z).
  - reflexivity.
  - intros w face.
    pose proof (draw_geometry (geometry face)
                  (if isinstance_Face face then 2 else 1)%Z w) as Hf.
    destruct (Face3D.holes (geometry face)); exact Hf.
Qed.

Lemma geometry_segments_repeat (f : Face3D.t) (lw : Z) :
  geometry_segments f lw
  = concat (repeat (boundary_pass f lw) (1 + Face3D.hole_count f)).
Proof.
  unfold geometry_segments.
  rewrite flat_map_const_repeat, length_hole_rings. reflexivity.
Qed.

Lemma geometry_segments_width (f : Face3D.t) (lw : Z) :
  Forall (fun d => line_width d = lw) (geometry_segments f lw).
Proof.
  unfold geometry_segments, boundary_pass.
  apply Forall_app. split.
  - apply Forall_map. apply Forall_forall. reflexivity.
  - apply Forall_flat_map. apply Forall_forall. intros _ _.
    apply Forall_map. apply Forall_forall. reflexivity.
Qed.

Lemma geometry_segments_from_boundary (f : Face3D.t) (lw : Z) :
  Forall (fun d => In (seg_geometry d) (Face3D.boundary_segments f))
         (geometry_segments f lw).
Proof.
  unfold geometry_segments, boundary_pass.
  apply Forall_app. split.
  - apply Forall_map. apply Forall_forall. intros s Hs. exact Hs.
  - apply Forall_flat_map. apply Forall_forall. intros _ _.
    apply Forall_map. apply Forall_forall. intros s Hs. exact Hs.
Qed.

(** ** Wireframe extraction *)

(** C1.  For an object whose boundary ring has N points and which has H
    holes, [_process_wireframe] appends N segments for the boundary, then H
    further passes of N segments each that repeat the boundary ring, then
    what it draws for the shades; every segment of the object's own part is
    a boundary segment, none is taken from a hole ring, and with H = 0 the
    own part is the N boundary segments alone.  [_face_wireframe] draws the
    same own part for a single object. *)
Theorem wireframe_segment_count (geo_obj : HBObject)
    (wireframe : list DisplayLineSegment3D) (lw : Z) :
  let face3d := geometry geo_obj in
  let N := length (Face3D.boundary face3d) in
  let H := Face3D.hole_count face3d in
  let own :=
    boundary_pass face3d lw ++ concat (repeat (boundary_pass face3d lw) H) in
  _process_wireframe geo_obj wireframe lw
    = wireframe ++ own ++ shade_segments geo_obj
  /\ length (boundary_pass face3d lw) = N
  /\ length (concat (repeat (boundary_pass face3d lw) H)) = (N * H)%nat
  /\ length own = (N + N * H)%nat
  /\ (H = 0%nat -> own = boundary_pass face3d lw)
  /\ Forall (fun d => In (seg_geometry d) (Face3D.boundary_segments face3d))
            own
  /\ _face_wireframe [geo_obj]
     = (let lw' := (if isinstance_Face geo_obj then 2 else 1)%Z in
        boundary_pass face3d lw'
        ++ concat (repeat (boundary_pass face3d lw') H)).
Proof.
  intros face3d N H own.
  assert (Eown : geometry_segments face3d lw = own).
  { rewrite geometry_segments_repeat. reflexivity. }
  repeat split.
  - rewrite process_wireframe_closed_form. fold face3d. now rewrite Eown.
  - apply length_boundary_pass.
  - rewrite length_concat_repeat, length_boundary_pass. reflexivity.
  - unfold own. rewrite length_app, length_concat_repeat,
      length_boundary_pass. reflexivity.
  - intros H0. unfold own. rewrite H0. simpl. apply app_nil_r.
  - rewrite <- Eown. apply geometry_segments_from_boundary.
  - rewrite face_wireframe_closed_form. simpl. rewrite app_nil_r.
    fold face3d. rewrite geometry_segments_repeat. reflexivity.
Qed.

(** C2.  Whatever width is passed in, every segment that
    [_process_wireframe] draws for the object's own geometry (boundary pass
    and the passes repeated for holes) has that width, and every segment it
    draws for an attached shade has width 1. *)
Theorem wireframe_weights (geo_obj : HBObject)
    (wireframe : list DisplayLineSegment3D) (lw : Z) :
  let own := geometry_segments (geometry geo_obj) lw in
  let from_shades :=
    flat_map (fun shade => geometry_segments (geometry shade) 1)
             (shades geo_obj) in
  _process_wireframe geo_obj wireframe lw = wireframe ++ own ++ from_shades
  /\ Forall (fun d => line_width d = lw) own
  /\ Forall (fun d => line_width d = 1%Z) from_shades.
Proof.
  intros own from_shades. repeat split.
  - apply process_wireframe_closed_form.
  - apply geometry_segments_width.
  - apply Forall_flat_map. apply Forall_forall. intros shade _.
    apply geometry_segments_width.
Qed.

(** C9.  [_process_wireframe] draws the object's own geometry and the
    geometry of each shade in its shade list and nothing else: replacing the
    shades of its shades by anything at all leaves the result unchanged. *)
Theorem wireframe_one_level (geo_obj : HBObject)
    (wireframe : list DisplayLineSegment3D) (lw : Z)
    (sub : HBObject -> list HBObject) :
  _process_wireframe (with_sub_shades sub geo_obj) wireframe lw
    = _process_wireframe geo_obj wireframe lw
  /\ _process_wireframe geo_obj wireframe lw
     = wireframe ++ geometry_segments (geometry geo_obj) lw
                 ++ flat_map (fun g => geometry_segments g 1)
                             (map geometry (shades geo_obj)).
Proof.
  rewrite !process_wireframe_closed_form. unfold shade_segments.
  destruct geo_obj as [k i d g tc bc ss]. simpl.
  rewrite !flat_map_concat_map, !map_map. simpl. split; reflexivity.
Qed.

(** The wall with one hole and one shade that itself carries a shade: 4
    boundary segments, 4 repeated for the hole, 3 for the shade, none for
    the shade's own shade. *)
Example wall_wireframe :
  map line_width (_process_wireframe wall [] 2)
  = [2; 2; 2; 2; 2; 2; 2; 2; 1; 1; 1]%Z.
Proof. reflexivity. Qed.

Example roof_boundary_segments :
  Face3D.boundary_segments roof_geo
  = [(pt 0 0 3, pt 10 0 3); (pt 10 0 3, pt 10 10 3);
     (pt 10 10 3, pt 0 10 3); (pt 0 10 3, pt 0 0 3)].
Proof. reflexivity. Qed.

(** ** Comparisons *)

Lemma Qltb_lt (a b : Q) : Qltb a b = true <-> a < b.
Proof.
  unfold Qltb. rewrite negb_true_iff, <- not_true_iff_false, Qle_bool_iff.
  split; [apply Qnot_le_lt | apply Qlt_not_le].
Qed.

Lemma Qltb_ge (a b : Q) : Qltb a b = false <-> b <= a.
Proof.
  unfold Qltb. rewrite negb_false_iff. apply Qle_bool_iff.
Qed.

Lemma Qneqb_neq (a b : Q) : Qneqb a b = true <-> ~ a == b.
Proof.
  unfold Qneqb. rewrite negb_true_iff, <- not_true_iff_false, Qeq_bool_iff.
  reflexivity.
Qed.

Lemma Qneqb_eq (a b : Q) : Qneqb a b = false <-> a == b.
Proof.
  unfold Qneqb. rewrite negb_false_iff. apply Qeq_bool_iff.
Qed.

Lemma txt_len_of_max (s : string) :
  txt_len_of s = Nat.max (String.length s) 10.
Proof.
  unfold txt_len_of. destruct (Nat.ltb_spec 10 (String.length s)); lia.
Qed.

(** ** The label loops, in closed form *)

Lemma fold_cond_append (A B : Type) (body : list B -> A -> list B)
    (c : A -> bool) (f : A -> B) (xs : list A) :
  (forall w x, body w x = if c x then append w (f x) else w) ->
  forall w, fold_left body xs w = w ++ map f (filter c xs).
Proof.
  intros Hbody. induction xs as [| x xs IH]; intros w; simpl.
  - now rewrite app_nil_r.
  - rewrite IH, Hbody. destruct (c x); simpl.
    + unfold append. now rewrite <- app_assoc.
    + reflexivity.
Qed.

Lemma fold_body_append (A B : Type) (body : list B -> A -> list B)
    (f : A -> B) (xs : list A) :
  (forall w x, body w x = append w (f x)) ->
  forall w, fold_left body xs w = w ++ map f xs.
Proof.
  intros Hbody. induction xs as [| x xs IH]; intros w; simpl.
  - now rewrite app_nil_r.
  - rewrite IH, Hbody. unfold append. now rewrite <- app_assoc.
Qed.

Lemma map_fst_combine (A B : Type) (xs : list A) (ys : list B) :
  length xs = length ys -> map fst (combine xs ys) = xs.
Proof.
  revert ys. induction xs as [| x xs IH]; intros [| y ys] Hlen;
    simpl in *; try discriminate; [reflexivity |].
  f_equal. apply IH. now injection Hlen.
Qed.

Lemma filter_map_fst (A B : Type) (c : A -> bool) (l : list (A * B)) :
  map fst (filter (fun it => c (fst it)) l) = filter c (map fst l).
Proof.
  induction l as [| [a b] l IH]; simpl; [reflexivity |].
  destruct (c a); simpl; now rewrite IH.
Qed.

Section LabelLoops.
Context {L : PlaneLib}.

Lemma room_labels_closed_form (color_room : ColorRoom) :
  color_room_to_vis_set_label_text color_room
  = map (room_label (explicit_height (cr_legend_parameters color_room))
                    (font (cr_legend_parameters color_room)))
        (combine (cr_attributes color_room) (cr_rooms color_room)).
Proof.
  unfold color_room_to_vis_set_label_text.
  erewrite fold_body_append
    with (f := room_label (explicit_height (cr_legend_parameters color_room))
                          (font (cr_legend_parameters color_room))).
  - reflexivity.
  - intros w [room_prop room]. reflexivity.
Qed.

Lemma face_labels_closed_form (color_face : ColorFace) :
  color_face_to_vis_set_label_text color_face
  = map (face_label (explicit_height (cf_legend_parameters color_face))
                    (font (cf_legend_parameters color_face)))
        (filter labelled
           (combine (cf_attributes color_face)
                    (cf_flat_geometry color_face))).
Proof.
  unfold color_face_to_vis_set_label_text.
  erewrite fold_cond_append
    with (c := labelled)
         (f := face_label (explicit_height (cf_legend_parameters color_face))
                          (font (cf_legend_parameters color_face))).
  - reflexivity.
  - intros w [face_prop f_geo]. reflexivity.
Qed.

End LabelLoops.

Section EnergyLabelLoops.
Context {L : PlaneLib}.
Variable percent_f : nat -> Q -> string.

Lemma energy_face_labels_closed_form (color_face : Energy.ColorFace) :
  Energy.color_face_to_vis_set_label_text percent_f color_face
  = map (fun it : Q * Face3D.t =>
           let lp := Energy.cf_legend_parameters color_face in
           face_label (explicit_height lp) (font lp)
                      (percent_f (decimal_count lp) (fst it), snd it))
        (combine (Energy.cf_matched_values color_face)
                 (Energy.cf_matched_flat_geometry color_face)).
Proof.
  unfold Energy.color_face_to_vis_set_label_text,
    Energy._process_leg_par_for_text.
  erewrite fold_body_append
    with (f := fun it : Q * Face3D.t =>
           let lp := Energy.cf_legend_parameters color_face in
           face_label (explicit_height lp) (font lp)
                      (percent_f (decimal_count lp) (fst it), snd it)).
  - reflexivity.
  - intros w [face_val f_geo]. reflexivity.
Qed.

End EnergyLabelLoops.

(** ** Orientation of face labels *)

Section Orientation.
Context {L : PlaneLib}.
Hypothesis Hrot : half_turn_reverses_y L.
Hypothesis Hmove : move_translates L.

Lemma oriented_plane_upright (f_geo : Face3D.t) :
  0 <= Vector3D.z (plane_y (oriented_plane f_geo)).
Proof.
  unfold oriented_plane.
  set (p := Plane_init (Face3D.normal f_geo) (Face3D.center f_geo)).
  destruct (Qltb (Vector3D.z (plane_y p)) 0) eqn:E.
  - apply Qltb_lt in E.
    destruct (Hrot p) as ((_ & _ & Hz) & _). simpl in Hz.
    rewrite Hz. lra.
  - now apply Qltb_ge in E.
Qed.

Lemma face_label_upright (txt_height : option Q) (fnt : string)
    (it : string * Face3D.t) :
  0 <= Vector3D.z (plane_y (dt_plane (face_label txt_height fnt it))).
Proof.
  simpl.
  match goal with
  | |- 0 <= Vector3D.z (plane_y (Plane_move ?p ?v)) =>
      destruct (Hmove p v) as (_ & (_ & _ & Hz) & _)
  end.
  rewrite Hz. apply oriented_plane_upright.
Qed.

End Orientation.

(** C3.  Every face label has an anchor plane whose Y axis has a
    non-negative Z component.  The plane is the plane built from the face's
    normal and centre, turned by [math.pi] about its own normal when its Y
    axis points down, and then only moved.  This holds for the label loop of
    [colorobj.color_face_to_vis_set] and for the one of the energy module. *)
Theorem face_labels_upright (L : PlaneLib)
    (Hrot : half_turn_reverses_y L) (Hmove : move_translates L) :
  (forall (color_face : ColorFace) (label : DisplayText3D),
     In label (color_face_to_vis_set_label_text color_face) ->
     0 <= Vector3D.z (plane_y (dt_plane label)) /\
     exists it v,
       In it (combine (cf_attributes color_face)
                      (cf_flat_geometry color_face)) /\
       dt_plane label = Plane_move (oriented_plane (snd it)) v)
  /\
  (forall (percent_f : nat -> Q -> string) (color_face : Energy.ColorFace)
          (label : DisplayText3D),
     In label (Energy.color_face_to_vis_set_label_text percent_f color_face) ->
     0 <= Vector3D.z (plane_y (dt_plane label)) /\
     exists it v,
       In it (combine (Energy.cf_matched_values color_face)
                      (Energy.cf_matched_flat_geometry color_face)) /\
       dt_plane label = Plane_move (oriented_plane (snd it)) v).
Proof.
  split.
  - intros color_face label Hin.
    rewrite face_labels_closed_form in Hin.
    apply in_map_iff in Hin. destruct Hin as (it & <- & Hit).
    apply filter_In in Hit. destruct Hit as (Hit & _).
    split; [now apply face_label_upright |].
    exists it. eexists. split; [exact Hit | reflexivity].
  - intros percent_f color_face label Hin.
    rewrite energy_face_labels_closed_form in Hin.
    apply in_map_iff in Hin. destruct Hin as (it & <- & Hit).
    split; [now apply face_label_upright |].
    exists it. eexists. split; [exact Hit | reflexivity].
Qed.

(** The wall of the sample has its Y axis pointing down before the turn; the
    labels of the sample are upright. *)
Lemma face_labels_upright_witness :
  Forall (fun label => 0 <= Vector3D.z (plane_y (dt_plane label)))
         (color_face_to_vis_set_label_text (L := exact_planes)
            (roof_and_wall default_legend)).
Proof.
  apply Forall_forall. intros label Hin.
  apply (proj1 (face_labels_upright exact_half_turn_reverses_y
                                   exact_move_translates)
               (roof_and_wall default_legend) label Hin).
Defined.

Example wall_plane_is_turned :
  Vector3D.z (plane_y (@Plane_init exact_planes
                         (Face3D.normal wall_geo) (Face3D.center wall_geo)))
  == -1
  /\ Vector3D.z (plane_y (oriented_plane (L := exact_planes) wall_geo)) == 1.
Proof. split; reflexivity. Qed.

(** ** The move of the anchor origin *)

Section Nudge.
Context {L : PlaneLib}.
Hypothesis Hmove : move_translates L.

Lemma nudge_direction_rule (p : Plane) : coded_rule p (nudge_direction p).
Proof.
  unfold coded_rule, nudge_direction.
  destruct (Qneqb (Vector3D.x (plane_n p)) 0) eqn:Ex;
    [apply Qneqb_neq in Ex | apply Qneqb_eq in Ex];
    (destruct (Qltb (Vector3D.x (plane_n p)) 0) eqn:Ex';
       [apply Qltb_lt in Ex' | apply Qltb_ge in Ex']);
    (destruct (Qltb (Vector3D.z (plane_n p)) 0) eqn:Ez;
       [apply Qltb_lt in Ez | apply Qltb_ge in Ez]);
    repeat split; intros; try reflexivity; exfalso; lra.
Qed.

Lemma face_label_moved (txt_height : option Q) (fnt : string)
    (it : string * Face3D.t) :
  moved_along (oriented_plane (snd it))
              (nudge_direction (oriented_plane (snd it)))
              (face_label txt_height fnt it).
Proof.
  unfold moved_along. simpl. apply Hmove.
Qed.

End Nudge.

(** C4, as the code has it.  The anchor origin of every face label is the
    origin of the oriented plane moved by the label's text height along a
    direction [d] of the plane: with normal.X > 0 along -Y, with
    normal.X < 0 along +Y; with normal.X = 0 along +Y when normal.Z < 0 and
    along -Y otherwise.  Both label loops follow the rule. *)
Theorem face_label_nudge (L : PlaneLib) (Hmove : move_translates L) :
  (forall (color_face : ColorFace) (label : DisplayText3D),
     In label (color_face_to_vis_set_label_text color_face) ->
     exists it d,
       In it (combine (cf_attributes color_face)
                      (cf_flat_geometry color_face)) /\
       coded_rule (oriented_plane (snd it)) d /\
       moved_along (oriented_plane (snd it)) d label)
  /\
  (forall (percent_f : nat -> Q -> string) (color_face : Energy.ColorFace)
          (label : DisplayText3D),
     In label (Energy.color_face_to_vis_set_label_text percent_f color_face) ->
     exists it d,
       In it (combine (Energy.cf_matched_values color_face)
                      (Energy.cf_matched_flat_geometry color_face)) /\
       coded_rule (oriented_plane (snd it)) d /\
       moved_along (oriented_plane (snd it)) d label).
Proof.
  split.
  - intros color_face label Hin.
    rewrite face_labels_closed_form in Hin.
    apply in_map_iff in Hin. destruct Hin as (it & <- & Hit).
    apply filter_In in Hit. destruct Hit as (Hit & _).
    exists it, (nudge_direction (oriented_plane (snd it))).
    split; [exact Hit | split].
    + apply nudge_direction_rule.
    + now apply face_label_moved.
  - intros percent_f color_face label Hin.
    rewrite energy_face_labels_closed_form in Hin.
    apply in_map_iff in Hin. destruct Hin as (it & <- & Hit).
    exists it, (nudge_direction (oriented_plane (snd it))).
    split; [exact Hit | split].
    + apply nudge_direction_rule.
    + now apply (face_label_moved Hmove _ _ (_, snd it)).
Qed.

Lemma face_label_nudge_witness :
  Forall (fun label =>
    exists it d,
      In it (combine (cf_attributes (roof_and_wall default_legend))
                     (cf_flat_geometry (roof_and_wall default_legend))) /\
      coded_rule (oriented_plane (snd it)) d /\
      moved_along (oriented_plane (snd it)) d label)
    (color_face_to_vis_set_label_text (L := exact_planes)
       (roof_and_wall default_legend)).
Proof.
  apply Forall_forall.
  exact (proj1 (face_label_nudge exact_move_translates)
               (roof_and_wall default_legend)).
Defined.

(** The roof of the sample has normal (0, 0, 1): normal.X = 0 and normal.Z is
    not negative.  The specification's wording asks for a move along +Y; the
    label is moved along -Y, from (5, 5, 3) to (5, 9/2, 3). *)
Lemma roof_label_moves_against_specified_direction :
  let p := oriented_plane (L := exact_planes) roof_geo in
  exists label,
    hd_error (color_face_to_vis_set_label_text (L := exact_planes)
                (roof_and_wall default_legend)) = Some label
    /\ dt_text label = "Roof"%string
    /\ Vector3D.x (plane_n p) == 0
    /\ ~ Vector3D.z (plane_n p) < 0
    /\ specified_direction p = plane_y p
    /\ Point3D.equiv (plane_o (dt_plane label)) (Point3D.mk 5 (9 # 2) 3)
    /\ moved_along p (Vector3D.neg (plane_y p)) label
    /\ ~ moved_along p (specified_direction p) label.
Proof.
  eexists. split; [reflexivity |].
  split; [reflexivity |].
  split; [reflexivity |].
  split; [intros H; vm_compute in H; discriminate |].
  split; [reflexivity |].
  split; [repeat split; reflexivity |].
  split; [repeat split; reflexivity |].
  intros (_ & Hy & _). vm_compute in Hy. discriminate.
Qed.

(** ** Faces without a value *)

(** C10.  In the label loop of [colorobj.color_face_to_vis_set] a face whose
    attribute is the text ['N/A'] gets no label: with one attribute per
    geometry, the texts of the labels are the attributes other than ['N/A'],
    in input order, one label each. *)
Theorem na_faces_skipped (L : PlaneLib) (color_face : ColorFace)
    (Hlen : length (cf_attributes color_face)
            = length (cf_flat_geometry color_face)) :
  let kept :=
    filter (fun s => negb (String.eqb s "N/A")) (cf_attributes color_face) in
  map dt_text (color_face_to_vis_set_label_text color_face) = kept
  /\ length (color_face_to_vis_set_label_text color_face) = length kept
  /\ ~ In "N/A"%string
        (map dt_text (color_face_to_vis_set_label_text color_face)).
Proof.
  intros kept.
  assert (E : map dt_text (color_face_to_vis_set_label_text color_face)
              = kept).
  { rewrite face_labels_closed_form, map_map. simpl.
    change (fun x : string * Face3D.t => fst x)
      with (@fst string Face3D.t).
    unfold labelled.
    rewrite (filter_map_fst (fun s => negb (String.eqb s "N/A"))).
    now rewrite map_fst_combine. }
  split; [exact E | split].
  - rewrite <- E. now rewrite length_map.
  - rewrite E. unfold kept. intros Hin. apply filter_In in Hin.
    destruct Hin as (_ & Hneq). discriminate.
Qed.

Lemma na_faces_skipped_witness :
  map dt_text (color_face_to_vis_set_label_text (L := exact_planes)
                 (roof_and_wall default_legend))
  = ["Roof"%string; "ExteriorWall"%string].
Proof.
  exact (proj1 (@na_faces_skipped exact_planes
                  (roof_and_wall default_legend) eq_refl)).
Defined.

(** ** Room labels *)

(** C5.  With no explicit text height, the anchor plane of a room label has
    the centre of the room geometry as origin and the global up vector as
    normal, and the text height is the X extent of the room geometry
    divided by max(length of the value, 10).  A room with centroid
    (5, 5, 3), value "Office" and X extent 10 gets height 1, origin
    (5, 5, 3) and normal (0, 0, 1). *)
Theorem room_label_placement (L : PlaneLib)
    (Horigin : init_keeps_origin L) (Hup : init_up_normal L) :
  (forall (color_room : ColorRoom) (label : DisplayText3D),
     is_text_height_default (cr_legend_parameters color_room) = true ->
     In label (color_room_to_vis_set_label_text color_room) ->
     exists room_prop room,
       In (room_prop, room)
          (combine (cr_attributes color_room) (cr_rooms color_room)) /\
       dt_text label = room_prop /\
       plane_o (dt_plane label) = Polyface3D.center (room_geometry room) /\
       Vector3D.equiv (plane_n (dt_plane label)) (Vector3D.mk 0 0 1) /\
       dt_text_height label
       = (Point3D.x (Polyface3D.max (room_geometry room))
          - Point3D.x (Polyface3D.min (room_geometry room)))
         / inject_Z (Z.of_nat (Nat.max (String.length room_prop) 10)))
  /\
  (forall (room : Room) (lp : LegendParameters),
     is_text_height_default lp = true ->
     Polyface3D.center (room_geometry room) = pt 5 5 3 ->
     Point3D.x (Polyface3D.max (room_geometry room))
     - Point3D.x (Polyface3D.min (room_geometry room)) == 10 ->
     exists label,
       color_room_to_vis_set_label_text
         (mkColorRoom ["Office"%string] [room] lp) = [label] /\
       dt_text_height label == 1 /\
       plane_o (dt_plane label) = pt 5 5 3 /\
       Vector3D.equiv (plane_n (dt_plane label)) (Vector3D.mk 0 0 1)).
Proof.
  split.
  - intros color_room label Hdef Hin.
    rewrite room_labels_closed_form in Hin.
    apply in_map_iff in Hin. destruct Hin as ([room_prop room] & <- & Hit).
    exists room_prop, room. unfold explicit_height. rewrite Hdef.
    simpl. repeat split; try apply Hup; auto.
    unfold room_txt_h, room_extent. now rewrite txt_len_of_max.
  - intros room lp Hdef Hcenter Hext.
    rewrite room_labels_closed_form. simpl. eexists. split; [reflexivity |].
    unfold explicit_height. rewrite Hdef. simpl.
    split; [| split].
    + unfold room_txt_h, room_extent. rewrite Hext. reflexivity.
    + rewrite Horigin. exact Hcenter.
    + rewrite Hcenter. apply Hup.
Qed.

Lemma room_label_placement_witness :
  exists label,
    color_room_to_vis_set_label_text (L := exact_planes)
      (office default_legend) = [label] /\
    dt_text_height label == 1 /\
    plane_o (dt_plane label) = pt 5 5 3 /\
    Vector3D.equiv (plane_n (dt_plane label)) (Vector3D.mk 0 0 1).
Proof.
  apply (proj2 (room_label_placement exact_init_keeps_origin
                                     exact_init_up_normal)
               office_room default_legend).
  - reflexivity.
  - reflexivity.
  - reflexivity.
Defined.

(** ** Text heights *)

Lemma div_decreases (e a b : Q) :
  0 < e -> 0 < a -> a < b -> e / b < e / a.
Proof.
  intros He Ha Hab.
  apply Qlt_shift_div_l; [exact Ha |].
  assert (E : e / b * a == e * a / b) by (field; lra).
  rewrite E. apply Qlt_shift_div_r; [lra | nra].
Qed.

Lemma txt_len_of_grows (s1 s2 : string) :
  (String.length s1 < String.length s2)%nat ->
  (10 < String.length s2)%nat ->
  (0 < txt_len_of s1 < txt_len_of s2)%nat.
Proof. rewrite !txt_len_of_max. lia. Qed.

Lemma inject_nat_lt (a b : nat) :
  (a < b)%nat -> inject_Z (Z.of_nat a) < inject_Z (Z.of_nat b).
Proof. intros H. rewrite <- Zlt_Qlt. lia. Qed.

Lemma long_text_is_labelled (s : string) (g : Face3D.t) :
  (10 < String.length s)%nat -> labelled (s, g) = true.
Proof.
  intros Hlen. unfold labelled. simpl.
  destruct (String.eqb_spec s "N/A") as [-> | Hneq]; [| reflexivity].
  simpl in Hlen. lia.
Qed.

(** C6.  With no explicit text height and the geometry held fixed, a value
    whose text is longer than another and longer than 10 characters gets a
    strictly smaller text height, for a room label (geometry of positive X
    extent) and for a face label (geometry of positive larger X or Y
    extent). *)
Theorem auto_height_decreases (L : PlaneLib) (lp : LegendParameters)
    (s1 s2 : string)
    (Hdef : is_text_height_default lp = true)
    (Hlonger : (String.length s1 < String.length s2)%nat)
    (Hbeyond : (10 < String.length s2)%nat) :
  (forall room : Room,
     0 < Point3D.x (Polyface3D.max (room_geometry room))
         - Point3D.x (Polyface3D.min (room_geometry room)) ->
     exists l1 l2,
       color_room_to_vis_set_label_text (mkColorRoom [s1] [room] lp) = [l1]
       /\ color_room_to_vis_set_label_text (mkColorRoom [s2] [room] lp) = [l2]
       /\ dt_text_height l2 < dt_text_height l1)
  /\
  (forall f_geo : Face3D.t,
     0 < py_max (Point3D.x (Face3D.max f_geo) - Point3D.x (Face3D.min f_geo))
                (Point3D.y (Face3D.max f_geo) - Point3D.y (Face3D.min f_geo)) ->
     s1 <> "N/A"%string ->
     exists l1 l2,
       color_face_to_vis_set_label_text (mkColorFace [s1] [f_geo] [] lp)
       = [l1]
       /\ color_face_to_vis_set_label_text (mkColorFace [s2] [f_geo] [] lp)
          = [l2]
       /\ dt_text_height l2 < dt_text_height l1).
Proof.
  destruct (txt_len_of_grows s1 s2 Hlonger Hbeyond) as (Hpos & Hlt).
  split.
  - intros room Hext.
    rewrite !room_labels_closed_form. simpl.
    do 2 eexists. split; [reflexivity | split; [reflexivity |]].
    unfold explicit_height. rewrite Hdef. simpl.
    unfold room_txt_h, room_extent.
    apply div_decreases; [exact Hext | |].
    + change 0 with (inject_Z (Z.of_nat 0)). now apply inject_nat_lt.
    + now apply inject_nat_lt.
  - intros f_geo Hext Hna.
    rewrite !face_labels_closed_form. simpl.
    rewrite (long_text_is_labelled s2 f_geo Hbeyond).
    assert (E1 : labelled (s1, f_geo) = true).
    { unfold labelled. simpl.
      now destruct (String.eqb_spec s1 "N/A") as [-> | _]. }
    rewrite E1. simpl.
    do 2 eexists. split; [reflexivity | split; [reflexivity |]].
    unfold explicit_height. rewrite Hdef. simpl.
    unfold face_txt_h, face_extent.
    apply div_decreases; [exact Hext | |].
    + change 0 with (inject_Z (Z.of_nat 0)). apply inject_nat_lt. lia.
    + apply inject_nat_lt. lia.
Qed.

(** "Office" against "Open Plan Office" on the sample room: 10 / 10 against
    10 / 16. *)
Lemma auto_height_decreases_witness :
  exists l1 l2,
    color_room_to_vis_set_label_text (L := exact_planes)
      (mkColorRoom ["Office"%string] [office_room] default_legend) = [l1]
    /\ color_room_to_vis_set_label_text (L := exact_planes)
         (mkColorRoom ["Open Plan Office"%string] [office_room]
                      default_legend) = [l2]
    /\ dt_text_height l2 < dt_text_height l1.
Proof.
  apply (proj1 (@auto_height_decreases exact_planes default_legend
                  "Office" "Open Plan Office" eq_refl
                  ltac:(vm_compute; lia) ltac:(vm_compute; lia))
               office_room).
  reflexivity.
Defined.

(** C7, as the code has it.  When an explicit text height is configured it
    is the height of every label, whatever its sign; the label loops contain
    no check and produce one label per room and one per face that has a
    value. *)
Theorem explicit_height_verbatim (L : PlaneLib) (lp : LegendParameters)
    (Hexplicit : is_text_height_default lp = false) :
  (forall (attributes : list string) (rooms : list Room),
     let labels :=
       color_room_to_vis_set_label_text (mkColorRoom attributes rooms lp) in
     Forall (fun label => dt_text_height label = text_height lp) labels
     /\ length labels = length (combine attributes rooms))
  /\
  (forall (attributes : list string) (flat_geometry : list Face3D.t)
          (flat_faces : list HBObject),
     let labels :=
       color_face_to_vis_set_label_text
         (mkColorFace attributes flat_geometry flat_faces lp) in
     Forall (fun label => dt_text_height label = text_height lp) labels
     /\ length labels
        = length (filter labelled (combine attributes flat_geometry))).
Proof.
  split.
  - intros attributes rooms labels. subst labels.
    rewrite room_labels_closed_form. simpl.
    unfold explicit_height. rewrite Hexplicit.
    split; [| apply length_map].
    apply Forall_map. apply Forall_forall. reflexivity.
  - intros attributes flat_geometry flat_faces labels. subst labels.
    rewrite face_labels_closed_form. simpl.
    unfold explicit_height. rewrite Hexplicit.
    split; [| apply length_map].
    apply Forall_map. apply Forall_forall. reflexivity.
Qed.

Lemma explicit_height_verbatim_witness :
  Forall (fun label => dt_text_height label = 3 # 4)
         (color_room_to_vis_set_label_text (L := exact_planes)
            (office (legend_with_height (3 # 4)))).
Proof.
  exact (proj1 (proj1 (@explicit_height_verbatim exact_planes
                         (legend_with_height (3 # 4)) eq_refl)
                      ["Office"%string] [office_room])).
Defined.

(** An explicit height of -1 for the sample room and of 0 for the sample
    faces: labels are produced, with heights -1 and 0. *)
Lemma nonpositive_height_is_accepted :
  -1 <= 0
  /\ map (fun label => (dt_text label, dt_text_height label))
         (color_room_to_vis_set_label_text (L := exact_planes)
            (office (legend_with_height (-1))))
     = [("Office"%string, -1)]
  /\ map (fun label => (dt_text label, dt_text_height label))
         (color_face_to_vis_set_label_text (L := exact_planes)
            (roof_and_wall (legend_with_height 0)))
     = [("Roof"%string, 0); ("ExteriorWall"%string, 0)].
Proof.
  split; [discriminate |]. split; reflexivity.
Qed.

(** ** Colour selectors *)

Lemma for_each_returned (A S : Type) (body : S -> A -> outcome S)
    (g : S -> A -> S) (xs : list A) :
  (forall s x, body s x = Returned (g s x)) ->
  forall s, for_each xs body s = Returned (fold_left g xs s).
Proof.
  intros Hbody. induction xs as [| x xs IH]; intros s; simpl.
  - reflexivity.
  - rewrite Hbody. simpl. apply IH.
Qed.

Lemma getattr_color (o : HBObject) (name : string) :
  is_color_attr name -> getattr o name = Returned (attr_color name o).
Proof. intros [-> | ->]; reflexivity. Qed.

Lemma add_display_shade_closed_form (o : HBObject)
    (dis_geos : list DisplayFace3D) (name d_mod : string) :
  is_color_attr name ->
  _add_display_shade o dis_geos name d_mod
  = Returned (dis_geos ++ shade_display name d_mod o).
Proof.
  intros Hname. unfold _add_display_shade, shade_display.
  rewrite for_each_returned
    with (g := fun dg shd =>
                 append dg (mkDisplayFace3D (geometry shd)
                                            (attr_color name shd) d_mod)).
  - now rewrite fold_append_map.
  - intros s shd. now rewrite getattr_color.
Qed.

Lemma obj_loop_closed_form (objs : list HBObject)
    (dis_geos : list DisplayFace3D) (name d_mod : string) :
  is_color_attr name ->
  for_each objs (fun dis_geos ap =>
      a_col <- getattr ap name ;;
      let dis_geos :=
        append dis_geos (mkDisplayFace3D (geometry ap) a_col d_mod) in
      _add_display_shade ap dis_geos name d_mod) dis_geos
  = Returned (dis_geos ++ flat_map (obj_display name d_mod) objs).
Proof.
  intros Hname.
  rewrite for_each_returned
    with (g := fun dg ap => dg ++ obj_display name d_mod ap).
  - now rewrite fold_append_flat_map with (h := obj_display name d_mod).
  - intros s ap. rewrite getattr_color by exact Hname. simpl.
    rewrite add_display_shade_closed_form by exact Hname.
    unfold append, obj_display. now rewrite <- app_assoc.
Qed.

Lemma face_display_geometry_closed_form (face : Face) (name d_mod : string) :
  is_color_attr name ->
  _face_display_geometry face name d_mod
  = Returned (face_display name d_mod face).
Proof.
  intros Hname. unfold _face_display_geometry, face_display.
  rewrite getattr_color by exact Hname. simpl.
  rewrite add_display_shade_closed_form by exact Hname. simpl.
  rewrite obj_loop_closed_form by exact Hname. simpl.
  rewrite obj_loop_closed_form by exact Hname.
  simpl. now rewrite <- app_assoc.
Qed.

Lemma aperture_to_vis_set_closed_form (aperture : HBObject)
    (color_by : string) :
  aperture_to_vis_set aperture color_by
  = Returned (vis_set_of aperture
      (obj_display (if String.eqb (lower color_by) "type"
                    then "type_color"%string else "bc_color"%string)
                   "SurfaceWithEdges" aperture)).
Proof.
  unfold aperture_to_vis_set.
  set (name := if String.eqb (lower color_by) "type"
               then "type_color"%string else "bc_color"%string).
  assert (Hname : is_color_attr name).
  { unfold name, is_color_attr.
    destruct (String.eqb (lower color_by) "type"); auto. }
  rewrite getattr_color by exact Hname. simpl.
  rewrite for_each_returned
    with (g := fun dg shd =>
                 append dg (mkDisplayFace3D (geometry shd)
                              (attr_color name shd) "SurfaceWithEdges")).
  - rewrite fold_append_map. reflexivity.
  - intros s shd. now rewrite getattr_color.
Qed.

Lemma face_to_vis_set_closed_form (face : Face) (color_by : string) :
  face_to_vis_set face color_by
  = Returned (vis_set_of (face_obj face)
      (face_display (if String.eqb (lower color_by) "type"
                     then "type_color"%string else "bc_color"%string)
                    "SurfaceWithEdges" face)).
Proof.
  unfold face_to_vis_set.
  rewrite face_display_geometry_closed_form; [reflexivity |].
  unfold is_color_attr.
  destruct (String.eqb (lower color_by) "type"); auto.
Qed.

(** C8, as the code has it.  A colour selector whose lower-case form is not
    'type' (so every selector that is neither 'type' nor
    'boundary_condition') makes [face_to_vis_set] and [aperture_to_vis_set]
    return the visualization set coloured by the boundary-condition colour,
    the same as for 'boundary_condition'; nothing is raised. *)
Theorem color_by_falls_back (face : Face) (aperture : HBObject)
    (color_by : string) (Hother : lower color_by <> "type"%string) :
  face_to_vis_set face color_by
    = Returned (vis_set_of (face_obj face)
                  (face_display "bc_color" "SurfaceWithEdges" face))
  /\ aperture_to_vis_set aperture color_by
     = Returned (vis_set_of aperture
                   (obj_display "bc_color" "SurfaceWithEdges" aperture))
  /\ face_to_vis_set face color_by
     = face_to_vis_set face "boundary_condition"
  /\ aperture_to_vis_set aperture color_by
     = aperture_to_vis_set aperture "boundary_condition"
  /\ Forall (fun d => exists o, df_color d = bc_color o)
            (obj_display "bc_color" "SurfaceWithEdges" aperture).
Proof.
  rewrite !face_to_vis_set_closed_form, !aperture_to_vis_set_closed_form.
  destruct (String.eqb_spec (lower color_by) "type") as [E | _];
    [contradiction |].
  simpl. repeat split.
  unfold obj_display, shade_display. constructor.
  - now exists aperture.
  - apply Forall_map. apply Forall_forall. intros shd _. now exists shd.
Qed.

Lemma color_by_falls_back_witness :
  aperture_to_vis_set window "none"
  = Returned (vis_set_of window
                (obj_display "bc_color" "SurfaceWithEdges" window)).
Proof.
  exact (proj1 (proj2 (@color_by_falls_back wall_face window "none"
                         ltac:(vm_compute; discriminate)))).
Defined.

(** The selector 'none' is neither 'type' nor 'boundary_condition'; the
    sample face and aperture are converted all the same, with their
    boundary-condition colours. *)
Lemma unknown_color_by_is_accepted :
  "none"%string <> "type"%string
  /\ "none"%string <> "boundary_condition"%string
  /\ face_to_vis_set wall_face "none" <> Raised InvalidConfiguration
  /\ aperture_to_vis_set window "none" <> Raised InvalidConfiguration
  /\ (exists vs,
        face_to_vis_set wall_face "none" = Returned vs
        /\ map (fun cg => map df_color (cg_geometry cg)) (vs_geometry vs)
           = [[(6, 6, 6); (4, 4, 4); (8, 8, 8); (4, 4, 4)]]%Z)
  /\ (exists vs,
        aperture_to_vis_set window "none" = Returned vs
        /\ map (fun cg => map df_color (cg_geometry cg)) (vs_geometry vs)
           = [[(8, 8, 8); (4, 4, 4)]]%Z).
Proof.
  split; [discriminate |]. split; [discriminate |].
  split; [vm_compute; discriminate |].
  split; [vm_compute; discriminate |].
  split; eexists; split; reflexivity.
Qed.

Example lower_type : lower "TyPe" = "type"%string.
Proof. reflexivity. Qed.

(** ** More on wireframes *)

Lemma length_flat_map_sum (A B : Type) (f : A -> list B) (xs : list A) :
  length (flat_map f xs) = list_sum (map (fun x => length (f x)) xs).
Proof.
  induction xs as [| x xs IH]; simpl; [reflexivity |].
  now rewrite length_app, IH.
Qed.

Lemma length_geometry_segments (f : Face3D.t) (lw : Z) :
  length (geometry_segments f lw) = ring_count f.
Proof.
  rewrite geometry_segments_repeat, length_concat_repeat,
    length_boundary_pass.
  reflexivity.
Qed.

Lemma shade_segments_width (o : HBObject) :
  Forall (fun d => line_width d = 1%Z) (shade_segments o).
Proof.
  unfold shade_segments. apply Forall_flat_map. apply Forall_forall.
  intros shade _. apply geometry_segments_width.
Qed.

Lemma object_segments_width (o : HBObject) :
  Forall (fun d => line_width d = 1%Z) (object_segments o 1).
Proof.
  unfold object_segments. apply Forall_app. split.
  - apply geometry_segments_width.
  - apply shade_segments_width.
Qed.

Lemma object_segments_widths (o : HBObject) (lw : Z) :
  Forall (fun d => line_width d = lw \/ line_width d = 1%Z)
         (object_segments o lw).
Proof.
  unfold object_segments. apply Forall_app. split.
  - eapply Forall_impl; [| apply geometry_segments_width]. simpl. auto.
  - eapply Forall_impl; [| apply shade_segments_width]. simpl. auto.
Qed.

Lemma process_wireframe_object_segments (o : HBObject)
    (w : list DisplayLineSegment3D) (lw : Z) :
  _process_wireframe o w lw = w ++ object_segments o lw.
Proof. apply process_wireframe_closed_form. Qed.

Lemma of_width_app (lw : Z) (l1 l2 : list DisplayLineSegment3D) :
  of_width lw (l1 ++ l2) = of_width lw l1 ++ of_width lw l2.
Proof. apply filter_app. Qed.

Lemma of_width_flat_map (A : Type) (lw : Z)
    (f : A -> list DisplayLineSegment3D) (xs : list A) :
  of_width lw (flat_map f xs) = flat_map (fun x => of_width lw (f x)) xs.
Proof.
  induction xs as [| x xs IH]; simpl; [reflexivity |].
  now rewrite of_width_app, IH.
Qed.

Lemma of_width_all (lw : Z) (l : list DisplayLineSegment3D) :
  Forall (fun d => line_width d = lw) l -> of_width lw l = l.
Proof.
  induction 1 as [| d l Hd _ IH]; simpl; [reflexivity |].
  rewrite Hd, Z.eqb_refl. now rewrite IH.
Qed.

Lemma of_width_none (lw lw' : Z) (l : list DisplayLineSegment3D) :
  lw' <> lw -> Forall (fun d => line_width d = lw') l -> of_width lw l = [].
Proof.
  intros Hneq. induction 1 as [| d l Hd _ IH]; simpl; [reflexivity |].
  rewrite Hd. destruct (Z.eqb_spec lw' lw); [contradiction | exact IH].
Qed.

Lemma flat_map_nil (A B : Type) (xs : list A) :
  flat_map (fun _ : A => @nil B) xs = [].
Proof. induction xs; simpl; auto. Qed.

Lemma room_wireframe_closed_form (rooms : list Room) :
  _room_wireframe rooms = flat_map room_segments rooms.
Proof.
  unfold _room_wireframe.
  rewrite fold_append_flat_map with (h := room_segments); [reflexivity |].
  intros w room. unfold room_segments.
  rewrite fold_append_flat_map
    with (h := fun shade => geometry_segments (geometry shade) 1).
  - rewrite fold_append_flat_map with (h := face_segments).
    + now rewrite <- app_assoc.
    + intros w' face. unfold face_segments.
      rewrite fold_append_flat_map
        with (h := fun dr => object_segments dr 1)
        by (intros; apply process_wireframe_object_segments).
      rewrite fold_append_flat_map
        with (h := fun ap => object_segments ap 1)
        by (intros; apply process_wireframe_object_segments).
      rewrite process_wireframe_object_segments.
      now rewrite <- !app_assoc.
  - intros w' shade.
    pose proof (draw_geometry (geometry shade) 1 w') as Hsh.
    destruct (Face3D.holes (geometry shade)); exact Hsh.
Qed.

(** X1.  [_process_wireframe] lengthens the list by N (1 + H) for the object
    plus N' (1 + H') for each of its shades, N and N' being the numbers of
    boundary points and H and H' the numbers of holes. *)
Theorem process_wireframe_length (geo_obj : HBObject)
    (wireframe : list DisplayLineSegment3D) (lw : Z) :
  length (_process_wireframe geo_obj wireframe lw)
  = (length wireframe + ring_count (geometry geo_obj)
     + list_sum (map (fun shade => ring_count (geometry shade))
                     (shades geo_obj)))%nat.
Proof.
  rewrite process_wireframe_closed_form, !length_app,
    length_geometry_segments.
  unfold shade_segments. rewrite length_flat_map_sum.
  rewrite (map_ext _ (fun shade => ring_count (geometry shade)))
    by (intros; apply length_geometry_segments).
  lia.
Qed.

(** X2.  [_process_wireframe] only appends: what the list held stays in
    front unchanged, what is added does not depend on it, and two calls in
    a row add the segments of the first object and then those of the
    second. *)
Theorem process_wireframe_appends (a b : HBObject)
    (wireframe : list DisplayLineSegment3D) (la lb : Z) :
  firstn (length wireframe) (_process_wireframe a wireframe la) = wireframe
  /\ skipn (length wireframe) (_process_wireframe a wireframe la)
     = _process_wireframe a [] la
  /\ _process_wireframe b (_process_wireframe a wireframe la) lb
     = wireframe ++ _process_wireframe a [] la ++ _process_wireframe b [] lb.
Proof.
  rewrite !process_wireframe_object_segments. simpl. repeat split.
  - rewrite firstn_app, Nat.sub_diag, firstn_all. simpl. apply app_nil_r.
  - rewrite skipn_app, Nat.sub_diag, skipn_all. reflexivity.
  - now rewrite <- app_assoc.
Qed.

(** X3.  [_face_wireframe] never draws the shades of the objects it is
    given: replacing them by anything leaves the result unchanged, and the
    number of segments is the sum of N (1 + H) over the objects. *)
Theorem face_wireframe_ignores_shades (faces : list HBObject)
    (sh : HBObject -> list HBObject) :
  _face_wireframe (map (fun o => with_shades o (sh o)) faces)
  = _face_wireframe faces
  /\ length (_face_wireframe faces)
     = list_sum (map (fun o => ring_count (geometry o)) faces).
Proof.
  rewrite !face_wireframe_closed_form. split.
  - rewrite flat_map_concat_map, map_map, <- flat_map_concat_map.
    apply flat_map_ext. intros [k i d g tc bc ss]. reflexivity.
  - rewrite length_flat_map_sum. apply f_equal, map_ext.
    intros o. apply length_geometry_segments.
Qed.

(** X4.  In the result of [_face_wireframe] the segments of width 2 are the
    wireframe of the [Face] objects of the list, the segments of width 1 are
    the wireframe of the other objects, and there is no other width. *)
Theorem face_wireframe_widths (faces : list HBObject) :
  of_width 2 (_face_wireframe faces)
  = _face_wireframe (filter isinstance_Face faces)
  /\ of_width 1 (_face_wireframe faces)
     = _face_wireframe (filter (fun o => negb (isinstance_Face o)) faces)
  /\ Forall (fun d => line_width d = 2%Z \/ line_width d = 1%Z)
            (_face_wireframe faces).
Proof.
  rewrite !face_wireframe_closed_form. repeat split.
  - induction faces as [| o faces IH]; simpl; [reflexivity |].
    rewrite of_width_app, IH.
    destruct (isinstance_Face o) eqn:E; simpl.
    + rewrite E. now rewrite of_width_all by apply geometry_segments_width.
    + now rewrite (@of_width_none 2 1) by
        (try discriminate; apply geometry_segments_width).
  - induction faces as [| o faces IH]; simpl; [reflexivity |].
    rewrite of_width_app, IH.
    destruct (isinstance_Face o) eqn:E; simpl.
    + now rewrite (@of_width_none 1 2) by
        (try discriminate; apply geometry_segments_width).
    + rewrite E. now rewrite of_width_all by apply geometry_segments_width.
  - apply Forall_flat_map. apply Forall_forall. intros o _.
    destruct (isinstance_Face o).
    + eapply Forall_impl; [| apply geometry_segments_width]. simpl. auto.
    + eapply Forall_impl; [| apply geometry_segments_width]. simpl. auto.
Qed.

(** X5.  The wireframe of a list of objects put together from two lists is
    the wireframe of the first followed by that of the second, for
    [_face_wireframe] and for [_room_wireframe]. *)
Theorem wireframes_concatenate (faces1 faces2 : list HBObject)
    (rooms1 rooms2 : list Room) :
  _face_wireframe (faces1 ++ faces2)
  = _face_wireframe faces1 ++ _face_wireframe faces2
  /\ _room_wireframe (rooms1 ++ rooms2)
     = _room_wireframe rooms1 ++ _room_wireframe rooms2.
Proof.
  rewrite !face_wireframe_closed_form, !room_wireframe_closed_form.
  split; apply flat_map_app.
Qed.

(** X6.  In the result of [_room_wireframe] the segments of width 2 are the
    segments of the faces' own geometry, face by face and room by room;
    everything else (apertures, doors and all shades) has width 1. *)
Theorem room_wireframe_widths (rooms : list Room) :
  of_width 2 (_room_wireframe rooms)
  = flat_map (fun room =>
      flat_map (fun face => geometry_segments (geometry (face_obj face)) 2)
               (faces room)) rooms
  /\ Forall (fun d => line_width d = 2%Z \/ line_width d = 1%Z)
            (_room_wireframe rooms).
Proof.
  rewrite room_wireframe_closed_form. split.
  - rewrite of_width_flat_map. apply flat_map_ext. intros room.
    unfold room_segments. rewrite of_width_app, of_width_flat_map.
    rewrite (@of_width_none 2 1 (flat_map _ (room_shades room)))
      by (try discriminate; apply Forall_flat_map, Forall_forall;
          intros; apply geometry_segments_width).
    rewrite app_nil_r. apply flat_map_ext. intros face.
    unfold face_segments, object_segments.
    rewrite !of_width_app.
    rewrite of_width_all by apply geometry_segments_width.
    rewrite (@of_width_none 2 1 (shade_segments _))
      by (try discriminate; apply shade_segments_width).
    rewrite (@of_width_none 2 1 (flat_map _ (_apertures face)))
      by (try discriminate; apply Forall_flat_map, Forall_forall;
          intros; apply object_segments_width).
    rewrite (@of_width_none 2 1 (flat_map _ (_doors face)))
      by (try discriminate; apply Forall_flat_map, Forall_forall;
          intros; apply object_segments_width).
    now rewrite !app_nil_r.
  - apply Forall_flat_map. apply Forall_forall. intros room _.
    unfold room_segments. apply Forall_app. split.
    + apply Forall_flat_map. apply Forall_forall. intros face _.
      unfold face_segments.
      apply Forall_app; split;
        [apply object_segments_widths | apply Forall_app; split].
      * apply Forall_flat_map. apply Forall_forall. intros ap _.
        eapply Forall_impl; [| apply object_segments_width]. simpl. auto.
      * apply Forall_flat_map. apply Forall_forall. intros dr _.
        eapply Forall_impl; [| apply object_segments_width]. simpl. auto.
    + apply Forall_flat_map. apply Forall_forall. intros shade _.
      eapply Forall_impl; [| apply geometry_segments_width]. simpl. auto.
Qed.

(** X7.  The wireframe that the energy [color_face_to_vis_set] builds for
    its faces is the wireframe [_room_wireframe] builds for one room that
    has these faces and no shades of its own. *)
Theorem energy_face_wireframe_is_room_wireframe
    (color_face : Energy.ColorFace) (g : Polyface3D.t) :
  Energy.color_face_to_vis_set_wireframe color_face
  = _room_wireframe [mkRoom g (Energy.cf_faces color_face) []].
Proof. reflexivity. Qed.

(** X8.  [_room_wireframe] draws the shades of a room one level deep: the
    shades that a room shade carries are not drawn, whereas the shades of
    faces, apertures and doors are. *)
Theorem room_shades_one_level (rooms : list Room)
    (sub : HBObject -> list HBObject) :
  _room_wireframe (map (room_with_sub_shades sub) rooms)
  = _room_wireframe rooms
  /\ _room_wireframe rooms
     = flat_map (fun room =>
         flat_map (fun face =>
           object_segments (face_obj face) 2
           ++ flat_map (fun ap => object_segments ap 1) (_apertures face)
           ++ flat_map (fun dr => object_segments dr 1) (_doors face))
           (faces room)
         ++ flat_map (fun g => geometry_segments g 1)
                     (map geometry (room_shades room))) rooms.
Proof.
  rewrite !room_wireframe_closed_form. split.
  - rewrite flat_map_concat_map, map_map, <- flat_map_concat_map.
    apply flat_map_ext. intros room. unfold room_segments. simpl.
    f_equal. rewrite flat_map_concat_map, map_map, <- flat_map_concat_map.
    apply flat_map_ext. intros [k i d g tc bc ss]. reflexivity.
  - apply flat_map_ext. intros room. unfold room_segments. f_equal.
    now rewrite !flat_map_concat_map, map_map.
Qed.

(** ** More on labels *)

Lemma map_fst_combine_firstn (A B : Type) (xs : list A) (ys : list B) :
  map fst (combine xs ys) = firstn (length ys) xs.
Proof.
  revert ys. induction xs as [| x xs IH]; intros [| y ys]; simpl;
    try reflexivity.
  now rewrite IH.
Qed.

Lemma combine_map_fst (A A' B : Type) (f : A -> A') (xs : list A)
    (ys : list B) :
  combine (map f xs) ys
  = map (fun it => (f (fst it), snd it)) (combine xs ys).
Proof.
  revert ys. induction xs as [| x xs IH]; intros [| y ys]; simpl;
    try reflexivity.
  now rewrite IH.
Qed.

Lemma div_bounds (e n : Q) :
  0 <= e -> 10 <= n -> 0 <= e / n /\ e / n <= e / 10.
Proof.
  intros He Hn. split.
  - apply Qle_shift_div_l; lra.
  - apply Qle_shift_div_r; [lra |].
    assert (E : e / 10 * n == e * n / 10) by field.
    rewrite E. apply Qle_shift_div_l; [lra | nra].
Qed.

Lemma div_positive (e n : Q) : 0 < e -> 0 < n -> 0 < e / n.
Proof. intros He Hn. apply Qlt_shift_div_l; lra. Qed.

Lemma txt_len_of_at_least (s : string) :
  10 <= inject_Z (Z.of_nat (txt_len_of s)).
Proof.
  rewrite txt_len_of_max.
  change 10 with (inject_Z 10). rewrite <- Zle_Qle. lia.
Qed.

Lemma txt_len_of_short (s : string) :
  (String.length s <= 10)%nat -> txt_len_of s = 10%nat.
Proof. rewrite txt_len_of_max. lia. Qed.

Section EnergyRoomLoop.
Context {L : PlaneLib}.
Variable percent_f : nat -> Q -> string.

Lemma energy_room_labels_closed_form (color_room : Energy.ColorRoom) :
  Energy.energy_color_room_to_vis_set_label_text percent_f color_room
  = map (fun it : Q * Room =>
           let lp := Energy.legend_parameters color_room in
           room_label (explicit_height lp) (font lp)
                      (percent_f (decimal_count lp) (fst it), snd it))
        (combine (Energy.matched_values color_room)
                 (Energy.matched_rooms color_room)).
Proof.
  unfold Energy.energy_color_room_to_vis_set_label_text,
    Energy._process_leg_par_for_text.
  erewrite fold_body_append
    with (f := fun it : Q * Room =>
           let lp := Energy.legend_parameters color_room in
           room_label (explicit_height lp) (font lp)
                      (percent_f (decimal_count lp) (fst it), snd it)).
  - reflexivity.
  - intros w [room_val room]. reflexivity.
Qed.

End EnergyRoomLoop.

(** X9.  [color_room_to_vis_set] labels rooms pairwise with the attributes:
    there are as many labels as the shorter of the two lists has items,
    their texts are the attributes in input order ('N/A' included), and all
    carry the font of the legend parameters and centred alignment. *)
Theorem room_labels_follow_attributes (L : PlaneLib)
    (color_room : ColorRoom) :
  let labels := color_room_to_vis_set_label_text color_room in
  map dt_text labels
  = firstn (length (cr_rooms color_room)) (cr_attributes color_room)
  /\ length labels
     = Nat.min (length (cr_attributes color_room))
               (length (cr_rooms color_room))
  /\ Forall (fun label =>
       dt_font label = font (cr_legend_parameters color_room)
       /\ dt_horizontal_alignment label = "Center"%string
       /\ dt_vertical_alignment label = "Middle"%string) labels.
Proof.
  intros labels. subst labels. rewrite room_labels_closed_form.
  repeat split.
  - rewrite map_map. simpl.
    change (fun x : string * Room => fst x) with (@fst string Room).
    apply map_fst_combine_firstn.
  - rewrite length_map. apply length_combine.
  - apply Forall_map. apply Forall_forall. intros it _. simpl. auto.
Qed.

(** X10.  With no explicit text height and a geometry of non-negative
    extent, the height of a room label lies between 0 and a tenth of the X
    extent of the room, and the height of a face label between 0 and a
    twentieth of the larger of the X and Y extents of the face. *)
Theorem auto_height_bounds (L : PlaneLib) (lp : LegendParameters)
    (Hdef : is_text_height_default lp = true) :
  (forall (attributes : list string) (rooms : list Room)
          (label : DisplayText3D),
     In label (color_room_to_vis_set_label_text
                 (mkColorRoom attributes rooms lp)) ->
     exists it, In it (combine attributes rooms) /\
       dt_text label = fst it /\
       (0 <= room_extent (snd it) ->
        0 <= dt_text_height label <= room_extent (snd it) / 10))
  /\
  (forall (attributes : list string) (flat_geometry : list Face3D.t)
          (flat_faces : list HBObject) (label : DisplayText3D),
     In label (color_face_to_vis_set_label_text
                 (mkColorFace attributes flat_geometry flat_faces lp)) ->
     exists it, In it (combine attributes flat_geometry) /\
       dt_text label = fst it /\
       (0 <= face_extent (snd it) ->
        0 <= dt_text_height label <= face_extent (snd it) / 20)).
Proof.
  split.
  - intros attributes rooms label Hin.
    rewrite room_labels_closed_form in Hin. simpl in Hin.
    apply in_map_iff in Hin. destruct Hin as (it & <- & Hit).
    exists it. split; [exact Hit | split; [reflexivity |]].
    intros Hext. simpl. unfold explicit_height. rewrite Hdef.
    unfold room_txt_h. apply div_bounds; [exact Hext |].
    apply txt_len_of_at_least.
  - intros attributes flat_geometry flat_faces label Hin.
    rewrite face_labels_closed_form in Hin. simpl in Hin.
    apply in_map_iff in Hin. destruct Hin as (it & <- & Hit).
    apply filter_In in Hit. destruct Hit as (Hit & _).
    exists it. split; [exact Hit | split; [reflexivity |]].
    intros Hext. simpl. unfold explicit_height. rewrite Hdef.
    unfold face_txt_h.
    pose proof (txt_len_of_at_least (fst it)) as Hlen.
    assert (E : inject_Z (Z.of_nat (txt_len_of (fst it) * 2))
                == inject_Z (Z.of_nat (txt_len_of (fst it))) * 2).
    { rewrite Nat2Z.inj_mul, inject_Z_mult. reflexivity. }
    rewrite E.
    set (n := inject_Z (Z.of_nat (txt_len_of (fst it)))) in *.
    split.
    + apply Qle_shift_div_l; lra.
    + apply Qle_shift_div_r; [lra |].
      assert (E' : face_extent (snd it) / 20 * (n * 2)
                   == face_extent (snd it) * n / 10) by field.
      rewrite E'. apply Qle_shift_div_l; [lra | nra].
Qed.

Lemma auto_height_bounds_witness :
  Forall (fun label => 0 <= dt_text_height label <= 10 / 10)
         (color_room_to_vis_set_label_text (L := exact_planes)
            (office default_legend)).
Proof.
  apply Forall_forall. intros label Hin.
  destruct (proj1 (@auto_height_bounds exact_planes default_legend eq_refl)
                  ["Office"%string] [office_room] label Hin)
    as (it & Hit & _ & Hb).
  destruct Hit as [<- | []].
  apply Hb. vm_compute. discriminate.
Defined.

(** X11.  With no explicit text height, every value of at most 10
    characters gets the same height: a tenth of the X extent for a room
    label and a twentieth of the larger extent for a face label, whatever
    the text. *)
Theorem short_values_share_height (L : PlaneLib) (lp : LegendParameters)
    (s : string)
    (Hdef : is_text_height_default lp = true)
    (Hshort : (String.length s <= 10)%nat) :
  (forall room : Room,
     map dt_text_height
         (color_room_to_vis_set_label_text (mkColorRoom [s] [room] lp))
     = [room_extent room / 10])
  /\
  (forall f_geo : Face3D.t,
     s <> "N/A"%string ->
     map dt_text_height
         (color_face_to_vis_set_label_text (mkColorFace [s] [f_geo] [] lp))
     = [face_extent f_geo / 20]).
Proof.
  split.
  - intros room. rewrite room_labels_closed_form. simpl.
    unfold explicit_height. rewrite Hdef. unfold room_txt_h.
    now rewrite (txt_len_of_short s Hshort).
  - intros f_geo Hna. rewrite face_labels_closed_form. simpl.
    assert (E : labelled (s, f_geo) = true).
    { unfold labelled. simpl.
      now destruct (String.eqb_spec s "N/A") as [-> | _]. }
    rewrite E. simpl.
    unfold explicit_height. rewrite Hdef. unfold face_txt_h. simpl.
    now rewrite (txt_len_of_short s Hshort).
Qed.

Lemma short_values_share_height_witness :
  map dt_text_height
      (color_room_to_vis_set_label_text (L := exact_planes)
         (mkColorRoom ["Lab"%string] [office_room] default_legend))
  = [room_extent office_room / 10].
Proof.
  exact (proj1 (@short_values_share_height exact_planes default_legend
                  "Lab" eq_refl ltac:(vm_compute; lia))
               office_room).
Defined.

(** ** The energy label loops against those of colorobj *)

(** X12.  [energy_color_room_to_vis_set] labels rooms exactly as
    [color_room_to_vis_set] does for the formatted values: same planes,
    heights, fonts and texts. *)
Theorem energy_room_labels_agree (L : PlaneLib)
    (percent_f : nat -> Q -> string) (color_room : Energy.ColorRoom) :
  Energy.energy_color_room_to_vis_set_label_text percent_f color_room
  = color_room_to_vis_set_label_text
      (mkColorRoom
         (map (percent_f
                 (decimal_count (Energy.legend_parameters color_room)))
              (Energy.matched_values color_room))
         (Energy.matched_rooms color_room)
         (Energy.legend_parameters color_room)).
Proof.
  rewrite energy_room_labels_closed_form, room_labels_closed_form. simpl.
  rewrite combine_map_fst, map_map. reflexivity.
Qed.

(** X13.  The energy [color_face_to_vis_set] gives every matched value a
    label, also one whose text comes out as 'N/A': the texts of the labels
    are the formatted values in input order, one per pair of value and
    geometry. *)
Theorem energy_face_labels_unfiltered (L : PlaneLib)
    (percent_f : nat -> Q -> string) (color_face : Energy.ColorFace) :
  let labels :=
    Energy.color_face_to_vis_set_label_text percent_f color_face in
  map dt_text labels
  = map (percent_f (decimal_count (Energy.cf_legend_parameters color_face)))
        (firstn (length (Energy.cf_matched_flat_geometry color_face))
                (Energy.cf_matched_values color_face))
  /\ length labels
     = Nat.min (length (Energy.cf_matched_values color_face))
               (length (Energy.cf_matched_flat_geometry color_face)).
Proof.
  intros labels. subst labels. rewrite energy_face_labels_closed_form.
  split.
  - rewrite map_map. simpl. rewrite <- map_fst_combine_firstn, map_map.
    reflexivity.
  - rewrite length_map. apply length_combine.
Qed.

(** X14.  When no value is formatted as 'N/A', the energy
    [color_face_to_vis_set] labels the faces exactly as the one of colorobj
    does for the formatted values. *)
Theorem energy_face_labels_agree (L : PlaneLib)
    (percent_f : nat -> Q -> string) (color_face : Energy.ColorFace)
    (Hvalues :
       Forall (fun v =>
                 percent_f
                   (decimal_count (Energy.cf_legend_parameters color_face)) v
                 <> "N/A"%string)
              (Energy.cf_matched_values color_face)) :
  Energy.color_face_to_vis_set_label_text percent_f color_face
  = color_face_to_vis_set_label_text
      (mkColorFace
         (map (percent_f
                 (decimal_count (Energy.cf_legend_parameters color_face)))
              (Energy.cf_matched_values color_face))
         (Energy.cf_matched_flat_geometry color_face)
         []
         (Energy.cf_legend_parameters color_face)).
Proof.
  rewrite energy_face_labels_closed_form, face_labels_closed_form. simpl.
  rewrite combine_map_fst.
  set (dc := decimal_count (Energy.cf_legend_parameters color_face)) in *.
  generalize (Energy.cf_matched_flat_geometry color_face) as geos.
  induction Hvalues as [| v vs Hv _ IH]; intros geos; [reflexivity |].
  destruct geos as [| g geos]; [reflexivity |]. simpl.
  unfold labelled at 1. simpl.
  destruct (String.eqb_spec (percent_f dc v) "N/A") as [E | _];
    [contradiction |].
  simpl. f_equal. apply IH.
Qed.

Lemma energy_face_labels_agree_witness :
  Energy.color_face_to_vis_set_label_text (L := exact_planes)
    sample_percent_f
    (Energy.mkColorFace [21; 21] [roof_geo; wall_geo] [] default_legend)
  = color_face_to_vis_set_label_text (L := exact_planes)
      (mkColorFace ["21.00"%string; "21.00"%string] [roof_geo; wall_geo] []
                   default_legend).
Proof.
  apply (@energy_face_labels_agree exact_planes sample_percent_f
           (Energy.mkColorFace [21; 21] [roof_geo; wall_geo] []
                               default_legend)).
  repeat constructor; vm_compute; discriminate.
Defined.

(** A value that is formatted as 'N/A' is labelled by the energy loop and
    skipped by the one of colorobj. *)
Example energy_loop_keeps_na :
  map dt_text
      (Energy.color_face_to_vis_set_label_text (L := exact_planes)
         sample_percent_f
         (Energy.mkColorFace [21; 0] [roof_geo; wall_geo] [] default_legend))
  = ["21.00"%string; "N/A"%string]
  /\ map dt_text
         (color_face_to_vis_set_label_text (L := exact_planes)
            (mkColorFace ["21.00"%string; "N/A"%string]
                         [roof_geo; wall_geo] [] default_legend))
     = ["21.00"%string].
Proof. split; reflexivity. Qed.

(** ** Where a face label sits *)

Lemma point_move_equiv (p q : Point3D.t) (v : Vector3D.t) :
  Point3D.equiv p q -> Point3D.equiv (Point3D.move p v) (Point3D.move q v).
Proof.
  intros (Hx & Hy & Hz). unfold Point3D.equiv, Point3D.move. simpl.
  rewrite Hx, Hy, Hz. repeat split; reflexivity.
Qed.

Lemma point_equiv_trans (p q r : Point3D.t) :
  Point3D.equiv p q -> Point3D.equiv q r -> Point3D.equiv p r.
Proof.
  intros (Hx & Hy & Hz) (Hx' & Hy' & Hz'). unfold Point3D.equiv.
  rewrite Hx, Hy, Hz. auto.
Qed.

Lemma vector_equiv_trans (u v w : Vector3D.t) :
  Vector3D.equiv u v -> Vector3D.equiv v w -> Vector3D.equiv u w.
Proof.
  intros (Hx & Hy & Hz) (Hx' & Hy' & Hz'). unfold Vector3D.equiv.
  rewrite Hx, Hy, Hz. auto.
Qed.

Lemma point_equiv_refl (p : Point3D.t) : Point3D.equiv p p.
Proof. repeat split; reflexivity. Qed.

Lemma vector_equiv_refl (v : Vector3D.t) : Vector3D.equiv v v.
Proof. repeat split; reflexivity. Qed.

Section Flush.
Context {L : PlaneLib}.
Hypothesis Horigin : init_keeps_origin L.
Hypothesis Hrot : half_turn_reverses_y L.

Lemma oriented_plane_frame (f_geo : Face3D.t) :
  Point3D.equiv (plane_o (oriented_plane f_geo)) (Face3D.center f_geo)
  /\ Vector3D.equiv
       (plane_n (oriented_plane f_geo))
       (plane_n (Plane_init (Face3D.normal f_geo) (Face3D.center f_geo))).
Proof.
  unfold oriented_plane.
  set (p := Plane_init (Face3D.normal f_geo) (Face3D.center f_geo)).
  assert (Ho : plane_o p = Face3D.center f_geo) by apply Horigin.
  destruct (Qltb (Vector3D.z (plane_y p)) 0).
  - destruct (Hrot p) as (_ & Hn & Ho'). split; [| exact Hn].
    rewrite <- Ho. exact Ho'.
  - rewrite Ho. split; [apply point_equiv_refl | apply vector_equiv_refl].
Qed.

End Flush.

(** X15.  A face label lies flush on the face and within one text height of
    its centre: the normal of its plane is the normal of the plane built
    from the face, and its origin is the centre of the face moved by the
    text height along the Y axis of the oriented plane or against it. *)
Theorem face_label_stays_on_face (L : PlaneLib)
    (Horigin : init_keeps_origin L) (Hrot : half_turn_reverses_y L)
    (Hmove : move_translates L)
    (color_face : ColorFace) (label : DisplayText3D)
    (Hin : In label (color_face_to_vis_set_label_text color_face)) :
  exists it d,
    In it (combine (cf_attributes color_face)
                   (cf_flat_geometry color_face))
    /\ dt_text label = fst it
    /\ Vector3D.equiv
         (plane_n (dt_plane label))
         (plane_n (Plane_init (Face3D.normal (snd it))
                              (Face3D.center (snd it))))
    /\ (d = plane_y (oriented_plane (snd it))
        \/ d = Vector3D.neg (plane_y (oriented_plane (snd it))))
    /\ Point3D.equiv
         (plane_o (dt_plane label))
         (Point3D.move (Face3D.center (snd it))
                       (Vector3D.mul d (dt_text_height label))).
Proof.
  rewrite face_labels_closed_form in Hin.
  apply in_map_iff in Hin. destruct Hin as (it & <- & Hit).
  apply filter_In in Hit. destruct Hit as (Hit & _).
  exists it, (nudge_direction (oriented_plane (snd it))).
  destruct (oriented_plane_frame Horigin Hrot (snd it)) as (Ho & Hn).
  split; [exact Hit | split; [reflexivity |]]. simpl.
  match goal with
  | |- context [Plane_move ?p ?v] =>
      destruct (Hmove p v) as (Hmo & _ & Hmn)
  end.
  split; [| split].
  - eapply vector_equiv_trans; [exact Hmn | exact Hn].
  - unfold nudge_direction.
    repeat match goal with
           | |- context [if ?c then _ else _] => destruct c
           end; auto.
  - eapply point_equiv_trans; [exact Hmo |].
    apply point_move_equiv. exact Ho.
Qed.

Lemma face_label_stays_on_face_witness :
  Forall (fun label =>
    exists it d,
      In it (combine (cf_attributes (roof_and_wall default_legend))
                     (cf_flat_geometry (roof_and_wall default_legend)))
      /\ dt_text label = fst it
      /\ Vector3D.equiv
           (plane_n (dt_plane label))
           (plane_n (Plane_init (Face3D.normal (snd it))
                                (Face3D.center (snd it))))
      /\ (d = plane_y (oriented_plane (snd it))
          \/ d = Vector3D.neg (plane_y (oriented_plane (snd it))))
      /\ Point3D.equiv
           (plane_o (dt_plane label))
           (Point3D.move (Face3D.center (snd it))
                         (Vector3D.mul d (dt_text_height label))))
    (color_face_to_vis_set_label_text (L := exact_planes)
       (roof_and_wall default_legend)).
Proof.
  apply Forall_forall. intros label Hin.
  exact (face_label_stays_on_face exact_init_keeps_origin
           exact_half_turn_reverses_y exact_move_translates
           (roof_and_wall default_legend) label Hin).
Defined.

(** ** More on face.py and aperture.py *)

Lemma length_shade_display (name d_mod : string) (o : HBObject) :
  length (shade_display name d_mod o) = length (shades o).
Proof. unfold shade_display. apply length_map. Qed.

Lemma shade_display_sub_shades (name d_mod : string)
    (sub : HBObject -> list HBObject) (o : HBObject) :
  shade_display name d_mod (with_sub_shades sub o)
  = shade_display name d_mod o.
Proof.
  unfold shade_display. destruct o as [k i d g tc bc ss]. simpl.
  rewrite map_map. apply map_ext. intros [k' i' d' g' tc' bc' ss'].
  reflexivity.
Qed.

Lemma obj_display_sub_shades (name d_mod : string)
    (sub : HBObject -> list HBObject) (o : HBObject) :
  obj_display name d_mod (with_sub_shades sub o) = obj_display name d_mod o.
Proof.
  unfold obj_display. rewrite shade_display_sub_shades.
  destruct o as [k i d g tc bc ss]. reflexivity.
Qed.

Lemma attr_color_cases (name : string) (o : HBObject) :
  attr_color name o = type_color o \/ attr_color name o = bc_color o.
Proof. unfold attr_color. destruct (String.eqb name "type_color"); auto. Qed.

(** X16.  A colour selector that reads 'type' in any mix of upper and lower
    case makes [face_to_vis_set] and [aperture_to_vis_set] colour every
    display face by the type colour of its object. *)
Theorem color_by_type_any_case (face : Face) (aperture : HBObject)
    (color_by : string) (Htype : lower color_by = "type"%string) :
  face_to_vis_set face color_by = face_to_vis_set face "type"
  /\ aperture_to_vis_set aperture color_by
     = aperture_to_vis_set aperture "type"
  /\ face_to_vis_set face color_by
     = Returned (vis_set_of (face_obj face)
                   (face_display "type_color" "SurfaceWithEdges" face))
  /\ aperture_to_vis_set aperture color_by
     = Returned (vis_set_of aperture
                   (obj_display "type_color" "SurfaceWithEdges" aperture))
  /\ map df_color (obj_display "type_color" "SurfaceWithEdges" aperture)
     = type_color aperture :: map type_color (shades aperture).
Proof.
  rewrite !face_to_vis_set_closed_form, !aperture_to_vis_set_closed_form.
  rewrite Htype. simpl. repeat split.
  unfold shade_display. now rewrite map_map.
Qed.

Lemma color_by_type_any_case_witness :
  aperture_to_vis_set window "TyPe" = aperture_to_vis_set window "type".
Proof.
  exact (proj1 (proj2 (@color_by_type_any_case wall_face window "TyPe"
                         eq_refl))).
Defined.

(** X17.  For every colour selector [face_to_vis_set] returns a set with
    exactly one context geometry, named after the face.  Its display faces
    are, in order: the punched geometry of the face, the face's shades, then
    each aperture followed by its shades, then each door followed by its
    shades; all have display mode 'SurfaceWithEdges'. *)
Theorem face_display_order (face : Face) (color_by : string) :
  exists dis_geos,
    face_to_vis_set face color_by
    = Returned (mkVisualizationSet
                  (identifier (face_obj face)) (display_name (face_obj face))
                  [mkContextGeometry (identifier (face_obj face))
                                     (display_name (face_obj face))
                                     dis_geos])
    /\ map df_geometry dis_geos
       = (punched_geometry face :: map geometry (shades (face_obj face)))
         ++ flat_map (fun ap => geometry ap :: map geometry (shades ap))
                     (_apertures face)
         ++ flat_map (fun dr => geometry dr :: map geometry (shades dr))
                     (_doors face)
    /\ Forall (fun d => df_display_mode d = "SurfaceWithEdges"%string)
              dis_geos.
Proof.
  rewrite face_to_vis_set_closed_form.
  set (name := if String.eqb (lower color_by) "type"
               then "type_color"%string else "bc_color"%string).
  eexists. split; [reflexivity |]. unfold face_display. split.
  - rewrite map_app, map_app. simpl. unfold shade_display.
    rewrite map_map. simpl. f_equal. f_equal.
    rewrite !flat_map_concat_map, !concat_map, !map_map. unfold obj_display.
    f_equal; f_equal; apply map_ext; intros o; simpl; f_equal;
      unfold shade_display; now rewrite map_map.
  - simpl. constructor; [reflexivity |].
    repeat (apply Forall_app; split).
    + apply Forall_map, Forall_forall. reflexivity.
    + apply Forall_flat_map, Forall_forall. intros ap _.
      constructor; [reflexivity |]. apply Forall_map, Forall_forall.
      reflexivity.
    + apply Forall_flat_map, Forall_forall. intros dr _.
      constructor; [reflexivity |]. apply Forall_map, Forall_forall.
      reflexivity.
Qed.

(** X18.  [aperture_to_vis_set] gives an aperture the set that
    [face_to_vis_set] gives a face made of the aperture alone: same
    geometry, no apertures, no doors. *)
Theorem aperture_as_bare_face (aperture : HBObject) (color_by : string) :
  aperture_to_vis_set aperture color_by
  = face_to_vis_set (as_face aperture) color_by.
Proof.
  rewrite aperture_to_vis_set_closed_form, face_to_vis_set_closed_form.
  unfold face_display, as_face, obj_display. simpl.
  now rewrite app_nil_r.
Qed.

(** X19.  The display sets go one level into shades: the shades carried by
    the shades of a face, of its apertures and of its doors do not show in
    the result of [face_to_vis_set], nor those carried by the shades of an
    aperture in the result of [aperture_to_vis_set]. *)
Theorem display_shades_one_level (face : Face) (aperture : HBObject)
    (color_by : string) (sub : HBObject -> list HBObject) :
  face_to_vis_set (face_with_sub_shades sub face) color_by
  = face_to_vis_set face color_by
  /\ aperture_to_vis_set (with_sub_shades sub aperture) color_by
     = aperture_to_vis_set aperture color_by.
Proof.
  rewrite !face_to_vis_set_closed_form, !aperture_to_vis_set_closed_form.
  split.
  - f_equal. unfold face_display, face_with_sub_shades. simpl.
    rewrite shade_display_sub_shades.
    rewrite !flat_map_concat_map, !map_map.
    rewrite (map_ext _ _ (obj_display_sub_shades _ _ sub)).
    rewrite (map_ext
               (fun x => obj_display _ _ (with_sub_shades sub x)) _
               (obj_display_sub_shades _ _ sub)).
    destruct (face_obj face) as [k i d g tc bc ss]. reflexivity.
  - rewrite obj_display_sub_shades.
    destruct aperture as [k i d g tc bc ss]. reflexivity.
Qed.

(** ** The values of the analysis geometry *)

Section DictFacts.
Variables K V : Type.
Variable eqb : K -> K -> bool.
Hypothesis eqb_spec : forall a b, reflect (a = b) (eqb a b).

Lemma getitem_setitem (d : PyDict.t K V) (k k' : K) (v : V) :
  PyDict.getitem eqb (PyDict.setitem eqb d k v) k'
  = if eqb k' k then Some v else PyDict.getitem eqb d k'.
Proof.
  induction d as [| [k0 v0] d IH]; simpl.
  - reflexivity.
  - destruct (eqb_spec k k0) as [-> | Hk]; simpl.
    + destruct (eqb_spec k' k0); reflexivity.
    + rewrite IH. destruct (eqb_spec k' k0) as [-> | Hk'].
      * destruct (eqb_spec k0 k); [congruence | reflexivity].
      * reflexivity.
Qed.

End DictFacts.

Lemma string_eqb_reflect (a b : string) : reflect (a = b) (String.eqb a b).
Proof. apply String.eqb_spec. Qed.

Lemma nat_eqb_reflect (a b : nat) : reflect (a = b) (Nat.eqb a b).
Proof. apply Nat.eqb_spec. Qed.

Lemma in_enumerate_from (A : Type) (xs : list A) (n i : nat) (a : A) :
  In (i, a) (enumerate_from n xs)
  <-> (n <= i)%nat /\ nth_error xs (i - n) = Some a.
Proof.
  revert n. induction xs as [| x xs IH]; intros n; simpl.
  - split; [intros [] | intros (_ & H)]. now destruct (i - n)%nat.
  - rewrite IH. split.
    + intros [E | (Hle & Hnth)].
      * injection E as <- <-. rewrite Nat.sub_diag. split; [lia | reflexivity].
      * split; [lia |]. replace (i - n)%nat with (S (i - S n)) by lia.
        exact Hnth.
    + intros (Hle & Hnth). destruct (Nat.eq_dec i n) as [-> | Hne].
      * left. rewrite Nat.sub_diag in Hnth. simpl in Hnth. congruence.
      * right. split; [lia |].
        replace (i - n)%nat with (S (i - S n)) in Hnth by lia. exact Hnth.
Qed.

Lemma attr_dict_from (xs : list string) :
  forall (n : nat) (d : PyDict.t nat string),
    (forall k v, In (k, v) d -> (k < n)%nat) ->
    fold_left (fun d (it : nat * string) =>
                 PyDict.setitem Nat.eqb d (fst it) (snd it))
              (enumerate_from n xs) d
    = d ++ enumerate_from n xs.
Proof.
  induction xs as [| x xs IH]; intros n d Hd; simpl.
  - now rewrite app_nil_r.
  - assert (E : PyDict.setitem Nat.eqb d n x = d ++ [(n, x)]).
    { clear IH. induction d as [| [k v] d IHd]; simpl; [reflexivity |].
      destruct (Nat.eqb_spec n k) as [-> | _].
      - specialize (Hd k v (or_introl eq_refl)). lia.
      - rewrite IHd; [reflexivity |].
        intros k' v' Hin. apply (Hd k' v'). now right. }
    rewrite E, IH.
    + now rewrite <- app_assoc.
    + intros k v Hin. apply in_app_or in Hin. destruct Hin as [Hin | [E' | []]].
      * specialize (Hd k v Hin). lia.
      * injection E' as <- _. lia.
Qed.

Lemma attr_dict_items (attributes_unique : list string) :
  attr_dict attributes_unique = enumerate attributes_unique.
Proof.
  unfold attr_dict, enumerate.
  rewrite attr_dict_from; [reflexivity | intros k v []].
Qed.

Lemma getitem_enumerate_from (xs : list string) (n i : nat) :
  PyDict.getitem Nat.eqb (enumerate_from n xs) (n + i)%nat = nth_error xs i.
Proof.
  revert n i. induction xs as [| x xs IH]; intros n i; simpl.
  - now destruct i.
  - destruct i as [| i]; simpl.
    + now rewrite Nat.add_0_r, Nat.eqb_refl.
    + destruct (Nat.eqb_spec (n + S i)%nat n); [lia |].
      replace (n + S i)%nat with (S n + i)%nat by lia. apply IH.
Qed.

Lemma attr_dict_getitem (attributes_unique : list string) (i : nat) :
  PyDict.getitem Nat.eqb (attr_dict attributes_unique) i
  = nth_error attributes_unique i.
Proof.
  rewrite attr_dict_items. apply (getitem_enumerate_from _ 0 i).
Qed.

Lemma rev_fold_sound (l : list (nat * string)) :
  forall (d : PyDict.t string nat) (s : string) (i : nat),
    PyDict.getitem String.eqb
      (fold_left (fun d (it : nat * string) =>
                    PyDict.setitem String.eqb d (snd it) (fst it)) l d) s
    = Some i ->
    In (i, s) l \/ PyDict.getitem String.eqb d s = Some i.
Proof.
  induction l as [| [j t] l IH]; intros d s i H; simpl in *.
  - now right.
  - apply IH in H. destruct H as [H | H]; [now left; right |].
    rewrite (@getitem_setitem _ _ String.eqb string_eqb_reflect) in H.
    destruct (String.eqb_spec s t) as [-> | _].
    + left. left. congruence.
    + now right.
Qed.

Lemma rev_fold_complete (l : list (nat * string)) :
  forall (d : PyDict.t string nat) (s : string),
    (exists i, In (i, s) l)
    \/ (exists i, PyDict.getitem String.eqb d s = Some i) ->
    exists j,
      PyDict.getitem String.eqb
        (fold_left (fun d (it : nat * string) =>
                      PyDict.setitem String.eqb d (snd it) (fst it)) l d) s
      = Some j.
Proof.
  induction l as [| [j t] l IH]; intros d s H; simpl in *.
  - destruct H as [(i & []) | H]; exact H.
  - apply IH. destruct H as [(i & [E | Hin]) | (i & Hd)].
    + right. injection E as -> ->. exists i.
      rewrite (@getitem_setitem _ _ String.eqb string_eqb_reflect).
      now rewrite String.eqb_refl.
    + left. now exists i.
    + right. rewrite (@getitem_setitem _ _ String.eqb string_eqb_reflect).
      destruct (String.eqb s t); eauto.
Qed.

Lemma attr_dict_rev_sound (u : list string) (s : string) (i : nat) :
  PyDict.getitem String.eqb (attr_dict_rev u) s = Some i ->
  nth_error u i = Some s.
Proof.
  unfold attr_dict_rev, PyDict.items. rewrite attr_dict_items.
  intros H. apply rev_fold_sound in H. destruct H as [H | H];
    [| discriminate].
  apply in_enumerate_from in H. destruct H as (_ & H).
  now rewrite Nat.sub_0_r in H.
Qed.

Lemma attr_dict_rev_complete (u : list string) (s : string) :
  In s u ->
  exists i, PyDict.getitem String.eqb (attr_dict_rev u) s = Some i.
Proof.
  intros Hin. unfold attr_dict_rev, PyDict.items. rewrite attr_dict_items.
  apply rev_fold_complete. left.
  apply In_nth_error in Hin. destruct Hin as (i & Hi). exists i.
  apply in_enumerate_from. split; [lia |]. now rewrite Nat.sub_0_r.
Qed.

Lemma attr_dict_rev_missing (u : list string) (s : string) :
  ~ In s u -> PyDict.getitem String.eqb (attr_dict_rev u) s = None.
Proof.
  intros Hnot.
  destruct (PyDict.getitem String.eqb (attr_dict_rev u) s) as [i |] eqn:E;
    [| reflexivity].
  apply attr_dict_rev_sound in E. apply nth_error_In in E. contradiction.
Qed.

Lemma lookup_each_got (d : PyDict.t string nat) (attributes : list string) :
  forall vs,
    lookup_each d attributes = Got vs
    <-> Forall2 (fun a i => PyDict.getitem String.eqb d a = Some i)
                attributes vs.
Proof.
  induction attributes as [| a attributes IH]; intros vs; simpl.
  - split.
    + intros E. injection E as <-. constructor.
    + intros H. inversion H. reflexivity.
  - destruct (PyDict.getitem String.eqb d a) as [i |] eqn:Ea.
    + destruct (lookup_each d attributes) as [found | k] eqn:El.
      * split.
        -- intros E. injection E as <-. constructor; [exact Ea |].
           now apply IH.
        -- intros H. inversion H as [| a' i' l l' Hi Hrest]; subst.
           apply IH in Hrest. congruence.
      * split; [discriminate |].
        intros H. inversion H as [| a' i' l l' Hi Hrest]; subst.
        apply IH in Hrest. discriminate.
    + split; [discriminate |].
      intros H. inversion H as [| a' i' l l' Hi Hrest]; subst. congruence.
Qed.

Lemma lookup_each_seq (d : PyDict.t string nat) (xs : list string) :
  forall n,
    (forall i a, nth_error xs i = Some a ->
                 PyDict.getitem String.eqb d a = Some (n + i)%nat) ->
    lookup_each d xs = Got (seq n (length xs)).
Proof.
  induction xs as [| x xs IH]; intros n H; simpl; [reflexivity |].
  rewrite (H 0%nat x eq_refl), Nat.add_0_r.
  rewrite (IH (S n)); [reflexivity |].
  intros i a Hi. rewrite (H (S i) a Hi). f_equal. lia.
Qed.

(** X20.  When the values of the analysis geometry are computed, each value
    is the key under which the ordinal dictionary [attr_dict] holds the
    attribute of that room or face, and each is smaller than the number of
    unique attributes, the [segment_count] of the legend. *)
Theorem analysis_values_round_trip (attributes_unique attributes : list string)
    (values : list nat)
    (Hgot : analysis_values attributes_unique attributes = Got values) :
  Forall2 (fun r_attr i =>
             PyDict.getitem Nat.eqb (attr_dict attributes_unique) i
             = Some r_attr)
          attributes values
  /\ Forall (fun i => (i < length attributes_unique)%nat) values
  /\ length values = length attributes.
Proof.
  apply lookup_each_got in Hgot.
  assert (H : Forall2 (fun r_attr i =>
                         nth_error attributes_unique i = Some r_attr)
                      attributes values).
  { eapply Forall2_impl; [| exact Hgot]. intros a i.
    apply attr_dict_rev_sound. }
  clear Hgot. repeat split.
  - eapply Forall2_impl; [| exact H]. intros a i Hi.
    now rewrite attr_dict_getitem.
  - induction H as [| a i l l' Hi _ IH]; constructor; [| exact IH].
    apply nth_error_Some. congruence.
  - symmetry. eapply Forall2_length. exact H.
Qed.

Lemma analysis_values_round_trip_witness :
  Forall2 (fun r_attr i =>
             PyDict.getitem Nat.eqb
               (attr_dict ["Office"%string; "Lab"%string]) i
             = Some r_attr)
          ["Lab"%string; "Office"%string; "Lab"%string] [1; 0; 1]%nat.
Proof.
  exact (proj1 (@analysis_values_round_trip
                  ["Office"%string; "Lab"%string]
                  ["Lab"%string; "Office"%string; "Lab"%string]
                  [1; 0; 1]%nat eq_refl)).
Defined.

(** X21.  The values of the analysis geometry are computed exactly when
    every attribute occurs among the unique attributes; otherwise the
    computation stops with a [KeyError] for the first attribute that does
    not. *)
Theorem analysis_values_defined (attributes_unique : list string) :
  (forall attributes,
     (exists values,
        analysis_values attributes_unique attributes = Got values)
     <-> Forall (fun a => In a attributes_unique) attributes)
  /\
  (forall before key after,
     Forall (fun a => In a attributes_unique) before ->
     ~ In key attributes_unique ->
     analysis_values attributes_unique (before ++ key :: after)
     = KeyError key).
Proof.
  unfold analysis_values. split.
  - induction attributes as [| a attributes IH]; simpl.
    + split; [constructor | now exists []].
    + split.
      * intros (values & H).
        destruct (PyDict.getitem String.eqb (attr_dict_rev attributes_unique)
                    a) as [i |] eqn:Ea; [| discriminate].
        destruct (lookup_each (attr_dict_rev attributes_unique) attributes)
          as [found | k] eqn:El; [| discriminate].
        constructor.
        -- apply attr_dict_rev_sound in Ea. eapply nth_error_In, Ea.
        -- apply IH. now exists found.
      * intros H. inversion H as [| a' l Ha Hrest]; subst.
        destruct (attr_dict_rev_complete _ _ Ha) as (i & Ei). rewrite Ei.
        apply IH in Hrest. destruct Hrest as (found & ->).
        now exists (i :: found).
  - intros before key after Hbefore Hkey.
    induction Hbefore as [| a l Ha _ IH]; simpl.
    + now rewrite attr_dict_rev_missing.
    + destruct (attr_dict_rev_complete _ _ Ha) as (i & ->).
      now rewrite IH.
Qed.

Example analysis_values_missing :
  analysis_values ["Office"%string; "Lab"%string]
                  ["Lab"%string; "Store"%string; "Hall"%string]
  = KeyError "Store".
Proof. reflexivity. Qed.

(** X22.  When the unique attributes are pairwise different, the attribute
    at position i gets the value i: the unique attributes themselves are
    numbered 0, 1, 2, ... in order. *)
Theorem analysis_values_number_unique (attributes_unique : list string)
    (Hunique : NoDup attributes_unique) :
  analysis_values attributes_unique attributes_unique
  = Got (seq 0 (length attributes_unique))
  /\ forall attributes values,
       analysis_values attributes_unique attributes = Got values ->
       Forall2 (fun r_attr i =>
                  nth_error attributes_unique i = Some r_attr
                  /\ forall j, nth_error attributes_unique j = Some r_attr
                               -> j = i)
               attributes values.
Proof.
  assert (Huniq : forall i j a,
             nth_error attributes_unique i = Some a ->
             nth_error attributes_unique j = Some a -> i = j).
  { intros i j a Hi Hj.
    apply (proj1 (NoDup_nth_error attributes_unique) Hunique).
    - apply nth_error_Some. congruence.
    - congruence. }
  split.
  - unfold analysis_values. apply lookup_each_seq. intros i a Hi. simpl.
    destruct (attr_dict_rev_complete attributes_unique a
                (nth_error_In _ _ Hi)) as (j & Hj).
    rewrite Hj. f_equal. apply attr_dict_rev_sound in Hj.
    eapply Huniq; eassumption.
  - intros attributes values Hgot. apply lookup_each_got in Hgot.
    eapply Forall2_impl; [| exact Hgot]. intros a i Hi.
    apply attr_dict_rev_sound in Hi. split; [exact Hi |].
    intros j Hj. eapply Huniq; eassumption.
Qed.

Lemma analysis_values_number_unique_witness :
  analysis_values ["Office"%string; "Lab"%string; "Store"%string]
                  ["Office"%string; "Lab"%string; "Store"%string]
  = Got [0; 1; 2]%nat.
Proof.
  refine (proj1 (@analysis_values_number_unique
                   ["Office"%string; "Lab"%string; "Store"%string] _)).
  repeat constructor; simpl; intuition discriminate.
Defined.

(** An attribute that is listed twice among the unique attributes is given
    its last position. *)
Example analysis_values_repeated :
  analysis_values ["Lab"%string; "Office"%string; "Lab"%string]
                  ["Lab"%string; "Office"%string]
  = Got [2; 1]%nat.
Proof. reflexivity. Qed.

(** ** The names derived from the attribute *)

Lemma lower_of_upper (c : ascii) : lower_ascii (upper_ascii c) = lower_ascii c.
Proof. by_characters c. Qed.

Lemma lower_of_lower (c : ascii) : lower_ascii (lower_ascii c) = lower_ascii c.
Proof. by_characters c. Qed.

Lemma upper_of_upper (c : ascii) : upper_ascii (upper_ascii c) = upper_ascii c.
Proof. by_characters c. Qed.

Lemma is_cased_upper (c : ascii) : is_cased (upper_ascii c) = is_cased c.
Proof. by_characters c. Qed.

Lemma is_cased_lower (c : ascii) : is_cased (lower_ascii c) = is_cased c.
Proof. by_characters c. Qed.

Lemma upper_not_underscore (c : ascii) :
  c <> "_"%char -> upper_ascii c <> "_"%char.
Proof. by_characters c. Qed.

Lemma lower_not_underscore (c : ascii) :
  c <> "_"%char -> lower_ascii c <> "_"%char.
Proof. by_characters c. Qed.

Lemma title_from_length (s : string) :
  forall b, String.length (title_from b s) = String.length s.
Proof. induction s as [| c s IH]; intros b; simpl; auto. Qed.

Lemma title_from_lower (s : string) :
  forall b, lower (title_from b s) = lower s.
Proof.
  induction s as [| c s IH]; intros b; simpl; [reflexivity |].
  rewrite IH. destruct b; now rewrite ?lower_of_lower, ?lower_of_upper.
Qed.

Lemma title_from_again (s : string) :
  forall b, title_from b (title_from b s) = title_from b s.
Proof.
  induction s as [| c s IH]; intros b; simpl; [reflexivity |].
  destruct b.
  - now rewrite lower_of_lower, is_cased_lower, IH.
  - now rewrite upper_of_upper, is_cased_upper, IH.
Qed.

Lemma replace_char_length (old new : ascii) (s : string) :
  String.length (replace_char old new s) = String.length s.
Proof. induction s as [| c s IH]; simpl; auto. Qed.

Lemma title_from_no_underscore (s : string) :
  forall b,
    ~ In "_"%char (list_ascii_of_string s) ->
    ~ In "_"%char (list_ascii_of_string (title_from b s)).
Proof.
  induction s as [| c s IH]; intros b Hs; simpl in *; [exact Hs |].
  intros [E | Hin].
  - assert (Hc : c <> "_"%char) by (intros ->; apply Hs; now left).
    destruct b.
    + now apply (lower_not_underscore Hc).
    + now apply (upper_not_underscore Hc).
  - apply (IH (is_cased c)); [| exact Hin]. intros H. apply Hs. now right.
Qed.

Lemma replace_underscore_none (s : string) :
  ~ In "_"%char (list_ascii_of_string (replace_char "_" " " s)).
Proof.
  induction s as [| c s IH]; simpl; [auto |].
  intros [E | Hin]; [| now apply IH].
  destruct (Ascii.eqb_spec c "_"); [discriminate | congruence].
Qed.

(** X23.  The title that [color_room_to_vis_set] and [color_face_to_vis_set]
    derive from the end of the attribute name, for the display name of the
    set and the default title of the legend, has the length of the attribute
    name, contains no underscore, reads like the name with spaces for
    underscores when case is ignored, and is left as it is by [title()]. *)
Theorem attr_title_shape (attr_name_end : string) :
  String.length (attr_title attr_name_end) = String.length attr_name_end
  /\ ~ In "_"%char (list_ascii_of_string (attr_title attr_name_end))
  /\ lower (attr_title attr_name_end)
     = lower (replace_char "_" " " attr_name_end)
  /\ title (attr_title attr_name_end) = attr_title attr_name_end
  /\ String.length (color_room_vis_set_display_name attr_name_end)
     = (5 + String.length attr_name_end)%nat
  /\ String.length (color_face_vis_set_display_name attr_name_end)
     = (5 + String.length attr_name_end)%nat.
Proof.
  unfold attr_title, title. repeat split.
  - now rewrite title_from_length, replace_char_length.
  - apply title_from_no_underscore, replace_underscore_none.
  - apply title_from_lower.
  - apply title_from_again.
  - unfold color_room_vis_set_display_name, attr_title, title. simpl.
    now rewrite title_from_length, replace_char_length.
  - unfold color_face_vis_set_display_name, attr_title, title. simpl.
    now rewrite title_from_length, replace_char_length.
Qed.

Example program_type_title :
  color_room_vis_set_display_name "program_type" = "Room Program Type"%string
  /\ attr_title "uSER_data2x" = "User Data2X"%string.
Proof. split; reflexivity. Qed.

(** ** The two ways of drawing a list of objects *)

(** X24.  [_face_wireframe] draws a list of objects as repeated calls of
    [_process_wireframe] would draw the same objects without their shades,
    with width 2 for a [Face] and width 1 for anything else. *)
Theorem face_wireframe_by_process_wireframe (faces : list HBObject) :
  _face_wireframe faces
  = fold_left (fun wireframe face =>
                 _process_wireframe (with_shades face []) wireframe
                   (if isinstance_Face face then 2 else 1)%Z)
              faces [].
Proof.
  rewrite face_wireframe_closed_form. symmetry.
  rewrite fold_append_flat_map
    with (h := fun face =>
                 geometry_segments (geometry face)
                   (if isinstance_Face face then 2 else 1)%Z).
  - reflexivity.
  - intros w [k i d g tc bc ss].
    rewrite process_wireframe_closed_form. unfold shade_segments. simpl.
    now rewrite app_nil_r.
Qed.
